(** * pymeasure.adapters.protocol: the byte normalizer [to_bytes] and the
    [ProtocolAdapter] mock transport, embedded from
    [src/pymeasure/adapters/protocol.py].

    Python objects are a tagged union [PyVal]; [bytes] and [bytearray]
    contents are [list byte]; a [str] is its list of Unicode code points;
    a [float] is an IEEE 754 double.  The built-ins the module calls
    ([str], [bytes], [encode], [decode]) are modelled as CPython 3.11 has
    them in its default configuration.
    The adapter is a record of its four attributes, and every method is a
    computation in a small state-and-exception monad: an exception leaves
    the attributes as they were when it was raised, exactly as in Python. *)

From Stdlib Require Import ZArith NArith Lia Bool QArith Qround Qpower Lqa.
From Stdlib Require Import Strings.Byte Strings.Ascii Strings.String.
From Stdlib Require Import DecimalFacts DecimalString DecimalPos DecimalZ.
From stdpp Require Import base list.

Local Open Scope Z_scope.

(** ** Python values *)

(** A byte string's content. *)
Definition bytes := list byte.

(** A [str]: its code points, in order. *)
Definition str := list N.

(** A [float]: not-a-number, an infinity, or the finite double
    [(-1)^negative * mantissa * 2^exponent]. *)
Inductive py_float : Type :=
| FloatNan
| FloatInf (negative : bool)
| FloatFinite (negative : bool) (mantissa : N) (exponent : Z).

(** The values [to_bytes] can be handed.  [PyOther] is an object of any
    class that none of the [isinstance] tests of [to_bytes] accepts, given
    by its class name and by the integer its [__index__] method returns
    when the class defines one. *)
#[warnings="-register-all"] Inductive PyVal : Type :=
| PyBytes (data : bytes)
| PyByteArray (data : bytes)
| PyNone
| PyStr (s : str)
| PyList (items : list PyVal)
| PyTuple (items : list PyVal)
| PyBool (b : bool)
| PyInt (n : Z)
| PyFloat (x : py_float)
| PyOther (cls : string) (index : option Z).

(** [type(v).__name__] *)
Definition type_name (v : PyVal) : string :=
  match v with
  | PyBytes _ => "bytes"
  | PyByteArray _ => "bytearray"
  | PyNone => "NoneType"
  | PyStr _ => "str"
  | PyList _ => "list"
  | PyTuple _ => "tuple"
  | PyBool _ => "bool"
  | PyInt _ => "int"
  | PyFloat _ => "float"
  | PyOther cls _ => cls
  end.

(** The content of a bytes-like object (empty for anything else). *)
Definition raw (v : PyVal) : bytes :=
  match v with
  | PyBytes d | PyByteArray d => d
  | _ => []
  end.

Definition is_bytes_like (v : PyVal) : bool :=
  match v with
  | PyBytes _ | PyByteArray _ => true
  | _ => false
  end.

(** ** Exceptions *)

(** The exceptions the module can raise, one constructor per raising site.
    The three [AssertionError]s are told apart by their message. *)
Inductive exn : Type :=
| TypeError_InvalidInput (cls : string)
    (* to_bytes: "Invalid input of type {cls}." *)
| TypeError_NotInteger (cls : string)
    (* bytes(seq): "'{cls}' object cannot be interpreted as an integer" *)
| ValueError_ByteRange
    (* bytes(seq): "bytes must be in range(0, 256)" *)
| ValueError_IntMaxStrDigits
    (* str(int): "Exceeds the limit (4300 digits) for integer string
       conversion" *)
| UnicodeEncodeError
| UnicodeDecodeError
| IndexError
    (* comm_pairs[_index]: "list index out of range" *)
| AssertionError_WrittenBytes (written : bytes) (expected : PyVal)
    (* write: "Written bytes '{written}' do not match expected '{expected}'." *)
| AssertionError_UnreadResponse (unread : bytes)
    (* write_bytes: "Unread response '{unread}' present when writing. ..." *)
| AssertionError_UnexpectedRead.
    (* read_bytes: "Unexpected read without prior write." *)

Inductive result (A : Type) : Type :=
| Ok (a : A)
| Raise (e : exn).
Arguments Ok {A} a.
Arguments Raise {A} e.

(** ** UTF-8 *)

Module Utf8.

Local Open Scope N_scope.

(** Byte number [n] (taken modulo 256). *)
Definition byte_of_N (n : N) : byte :=
  match Byte.of_N (n mod 256) with
  | Some b => b
  | None => x00
  end.

(** A continuation byte carrying six bits of [c], starting at bit [shift]. *)
Definition cont (c : N) (shift : N) : byte :=
  byte_of_N (0x80 + N.land (N.shiftr c shift) 0x3F).

(** The encoding of one code point; surrogates and values above U+10FFFF
    have none. *)
Definition encode_cp (c : N) : option bytes :=
  if c <? 0x80 then Some [byte_of_N c]
  else if c <? 0x800 then
    Some [byte_of_N (0xC0 + N.shiftr c 6); cont c 0]
  else if c <? 0x10000 then
    if (0xD800 <=? c) && (c <? 0xE000) then None
    else Some [byte_of_N (0xE0 + N.shiftr c 12); cont c 6; cont c 0]
  else if c <? 0x110000 then
    Some [byte_of_N (0xF0 + N.shiftr c 18); cont c 12; cont c 6; cont c 0]
  else None.

(** [s.encode("utf-8")]; [None] stands for [UnicodeEncodeError]. *)
Fixpoint encode (s : str) : option bytes :=
  match s with
  | [] => Some []
  | c :: s' =>
      match encode_cp c, encode s' with
      | Some b, Some bs => Some (b ++ bs)
      | _, _ => None
      end
  end.

Definition is_cont (b : byte) : bool :=
  N.land (Byte.to_N b) 0xC0 =? 0x80.

Definition payload (b : byte) : N := N.land (Byte.to_N b) 0x3F.

(** A decoded scalar is accepted when it is not a surrogate, is at most
    U+10FFFF and needed the number of bytes it was written with. *)
Definition scalar_in (lo hi c : N) : bool :=
  (lo <=? c) && (c <=? hi) && negb ((0xD800 <=? c) && (c <? 0xE000)).

(** [b.decode("utf-8")] (strict); [None] stands for [UnicodeDecodeError]. *)
Fixpoint decode (l : bytes) : option str :=
  match l with
  | [] => Some []
  | b0 :: t0 =>
      let n0 := Byte.to_N b0 in
      if n0 <? 0x80 then option_map (cons n0) (decode t0)
      else if N.land n0 0xE0 =? 0xC0 then
        match t0 with
        | b1 :: t1 =>
            let c := N.shiftl (N.land n0 0x1F) 6 + payload b1 in
            if is_cont b1 && scalar_in 0x80 0x7FF c
            then option_map (cons c) (decode t1) else None
        | _ => None
        end
      else if N.land n0 0xF0 =? 0xE0 then
        match t0 with
        | b1 :: b2 :: t2 =>
            let c := N.shiftl (N.land n0 0x0F) 12
                     + N.shiftl (payload b1) 6 + payload b2 in
            if is_cont b1 && is_cont b2 && scalar_in 0x800 0xFFFF c
            then option_map (cons c) (decode t2) else None
        | _ => None
        end
      else if N.land n0 0xF8 =? 0xF0 then
        match t0 with
        | b1 :: b2 :: b3 :: t3 =>
            let c := N.shiftl (N.land n0 0x07) 18
                     + N.shiftl (payload b1) 12
                     + N.shiftl (payload b2) 6 + payload b3 in
            if is_cont b1 && is_cont b2 && is_cont b3
               && scalar_in 0x10000 0x10FFFF c
            then option_map (cons c) (decode t3) else None
        | _ => None
        end
      else None
  end.

End Utf8.

(** A [str] literal of ASCII characters, as code points. *)
Definition py_str (s : string) : str :=
  map (fun b => Byte.to_N b) (list_byte_of_string s).

(** A [bytes] literal of ASCII characters. *)
Definition B (s : string) : bytes := list_byte_of_string s.

(** [sys.int_info.default_max_str_digits] *)
Definition int_max_str_digits : N := 4300.

(** The number of decimal digits of [n], its sign apart. *)
Definition decimal_digits (n : Z) : nat :=
  match Z.to_int n with
  | Decimal.Pos d | Decimal.Neg d => Decimal.nb_digits d
  end.

(** [str(n)] for an [int]: decimal digits, with a leading minus sign for a
    negative number; a number of more than [int_max_str_digits] digits
    makes the conversion raise [ValueError]. *)
Definition str_of_int (n : Z) : result str :=
  if (int_max_str_digits <? N.of_nat (decimal_digits n))%N
  then Raise ValueError_IntMaxStrDigits
  else Ok (py_str (NilZero.string_of_int (Z.to_int n))).

(** ** [str(float)] *)

(** The text [str()] gives for a [float]: the shortest decimal numeral that
    reads back as the same double (the nearest to it among the shortest),
    written positionally or with an exponent as [float.__repr__] does. *)
Module Float.

(** [2^e] and [10^e] as rationals. *)
Definition pow2 (e : Z) : Q := Qpower 2 e.
Definition pow10 (e : Z) : Q := Qpower 10 e.

(** The value of the finite double [m * 2^e]. *)
Definition value (m : N) (e : Z) : Q := (inject_Z (Z.of_N m) * pow2 e)%Q.

(** The distance to the next double below and above. *)
Definition gap_below (m : N) (e : Z) : Q :=
  if (m =? 2 ^ 52)%N && (-1074 <? e) then pow2 (e - 1) else pow2 e.

Definition gap_above (e : Z) : Q := pow2 e.

Definition Qlt_bool (a b : Q) : bool := negb (Qle_bool b a).

(** A rational [v] reads back as the double [m * 2^e] when it rounds to it
    (to nearest, ties to the even mantissa): it lies between the midpoints
    to the neighbouring doubles, which are included for an even mantissa. *)
Definition reads_back (m : N) (e : Z) (v : Q) : bool :=
  let lo := (value m e - gap_below m e / 2)%Q in
  let hi := (value m e + gap_above e / 2)%Q in
  if N.even m then Qle_bool lo v && Qle_bool v hi
  else Qlt_bool lo v && Qlt_bool v hi.

(** The number of decimal digits of a positive integer. *)
Definition digit_count (n : Z) : Z :=
  Z.of_nat (Decimal.nb_digits (N.to_uint (Z.to_N n))).

(** The decimal exponent [E] of [m * 2^e > 0]: [10^E <= m * 2^e < 10^(E+1)]. *)
Definition decimal_exponent (m : N) (e : Z) : Z :=
  let num := if 0 <=? e then Z.of_N m * 2 ^ e else Z.of_N m in
  let den := if 0 <=? e then 1 else 2 ^ (- e) in
  let est := digit_count num - digit_count den in
  if Qle_bool (pow10 est) (value m e) then est else est - 1.

(** The decimal of [k] significant digits nearest to [m * 2^e] that reads
    back as it, as digits [c] and exponent [q] (the decimal [c * 10^q]):
    the one below or the one above, the nearer when both read back, the
    even one on a tie. *)
Definition candidate (m : N) (e E k : Z) : option (Z * Z) :=
  let q := E - (k - 1) in
  let t := (value m e / pow10 q)%Q in
  let f := Qfloor t in
  let low := reads_back m e (inject_Z f * pow10 q)%Q in
  let high := reads_back m e (inject_Z (f + 1) * pow10 q)%Q in
  match low, high with
  | true, true =>
      match Qcompare (t - inject_Z f) (inject_Z (f + 1) - t) with
      | Lt => Some (f, q)
      | Gt => Some (f + 1, q)
      | Eq => Some (if Z.even f then f else f + 1, q)
      end
  | true, false => Some (f, q)
  | false, true => Some (f + 1, q)
  | false, false => None
  end.

(** The first precision that has such a decimal. *)
Fixpoint shortest (m : N) (e E : Z) (ks : list Z) : option (Z * Z) :=
  match ks with
  | [] => None
  | k :: ks' =>
      match candidate m e E k with
      | Some r => Some r
      | None => shortest m e E ks'
      end
  end.

(** The exact decimal expansion of [m * 2^e]. *)
Definition exact_decimal (m : N) (e : Z) : Z * Z :=
  if 0 <=? e then (Z.of_N m * 2 ^ e, 0) else (Z.of_N m * 5 ^ (- e), e).

(** Seventeen significant digits always suffice for a double. *)
Definition precisions : list Z :=
  [1; 2; 3; 4; 5; 6; 7; 8; 9; 10; 11; 12; 13; 14; 15; 16; 17].

(** The digits and exponent [str()] prints for [m * 2^e]. *)
Definition decimal (m : N) (e : Z) : Z * Z :=
  if (m =? 0)%N then (0, 0)
  else
    match shortest m e (decimal_exponent m e) precisions with
    | Some r => r
    | None => exact_decimal m e
    end.

(** The decimal digits of a natural number. *)
Definition digit_bytes (c : Z) : bytes :=
  list_byte_of_string (NilZero.string_of_uint (N.to_uint (Z.to_N c))).

Fixpoint strip_leading_zeros (ds : bytes) : bytes :=
  match ds with
  | d :: ds' => if Byte.eqb d "0" then strip_leading_zeros ds' else ds
  | [] => []
  end.

Definition strip_trailing_zeros (ds : bytes) : bytes :=
  reverse (strip_leading_zeros (reverse ds)).

(** An exponent: a sign and at least two digits. *)
Definition exponent_text (x : Z) : bytes :=
  (if x <? 0 then B "-" else B "+")
    ++ (if Z.abs x <? 10 then B "0" else []) ++ digit_bytes (Z.abs x).

(** The numeral for [c * 10^q]: with an exponent when the decimal point is
    more than sixteen places right of the first digit or more than three
    zeros left of it, positionally otherwise, and never without a
    fractional part or an exponent. *)
Definition format_decimal (negative : bool) (c q : Z) : bytes :=
  let all := digit_bytes c in
  let decpt := Z.of_nat (length all) + q in
  let ds := strip_trailing_zeros all in
  let n := Z.of_nat (length ds) in
  (if negative then B "-" else [])
    ++ (if c =? 0 then B "0.0"
        else if (decpt <=? -4) || (16 <? decpt) then
          take 1 ds ++ (if 1 <? n then B "." ++ drop 1 ds else [])
            ++ B "e" ++ exponent_text (decpt - 1)
        else if decpt <=? 0 then
          B "0." ++ replicate (Z.to_nat (- decpt)) "0"%byte ++ ds
        else if n <=? decpt then
          ds ++ replicate (Z.to_nat (decpt - n)) "0"%byte ++ B ".0"
        else
          take (Z.to_nat decpt) ds ++ B "." ++ drop (Z.to_nat decpt) ds).

(** [str(x)] *)
Definition text (x : py_float) : bytes :=
  match x with
  | FloatNan => B "nan"
  | FloatInf negative => if negative then B "-inf" else B "inf"
  | FloatFinite negative m e =>
      let (c, q) := decimal m e in format_decimal negative c q
  end.

(** The triples that are doubles: a mantissa of at most 53 bits, of exactly
    53 unless the exponent is the least one. *)
Definition ok (x : py_float) : bool :=
  match x with
  | FloatFinite _ m e =>
      (m <? 2 ^ 53)%N && (-1074 <=? e) && (e <=? 971)
      && ((2 ^ 52 <=? m)%N || (e =? -1074))
  | _ => true
  end.

End Float.

(** [str(x)] for a [float], as code points. *)
Definition str_of_float (x : py_float) : str :=
  map (fun b => Byte.to_N b) (Float.text x).

(** [str(b)] for a [bool]. *)
Definition str_of_bool (b : bool) : str :=
  py_str (if b then "True" else "False").

(** [s.encode("utf-8")] *)
Definition str_encode (s : str) : result bytes :=
  match Utf8.encode s with
  | Some b => Ok b
  | None => Raise UnicodeEncodeError
  end.

(** [b.decode("utf-8")] *)
Definition bytes_decode (b : bytes) : result str :=
  match Utf8.decode b with
  | Some s => Ok s
  | None => Raise UnicodeDecodeError
  end.

(** ** [bytes(iterable)] *)

(** The integer an item stands for, through [__index__]: an [int] is
    itself, [True] is 1 and [False] 0, an object of another class gives
    what its [__index__] returns; anything else has none. *)
Definition index_of_item (v : PyVal) : option Z :=
  match v with
  | PyInt n => Some n
  | PyBool b => Some (if b then 1 else 0)
  | PyOther _ index => index
  | _ => None
  end.

(** One item of the iterable, through [__index__] and the range test. *)
Definition byte_of_item (v : PyVal) : result byte :=
  match index_of_item v with
  | Some n =>
      if (0 <=? n) && (n <? 256) then Ok (Utf8.byte_of_N (Z.to_N n))
      else Raise ValueError_ByteRange
  | None => Raise (TypeError_NotInteger (type_name v))
  end.

(** The items are converted in order; the first offending one raises. *)
Fixpoint bytes_of_items (items : list PyVal) : result bytes :=
  match items with
  | [] => Ok []
  | v :: rest =>
      match byte_of_item v with
      | Raise e => Raise e
      | Ok b =>
          match bytes_of_items rest with
          | Raise e => Raise e
          | Ok bs => Ok (b :: bs)
          end
      end
  end.

(** ** [to_bytes] *)

(** [str(command)] for the values of the numeric branch. *)
Definition str_of_number (command : PyVal) : result str :=
  match command with
  | PyBool b => Ok (str_of_bool b)
  | PyInt n => str_of_int n
  | PyFloat x => Ok (str_of_float x)
  | _ => Ok []
  end.

(** A freshly built [bytes] object. *)
Definition new_bytes (r : result bytes) : result PyVal :=
  match r with
  | Ok b => Ok (PyBytes b)
  | Raise e => Raise e
  end.

(** The [isinstance] chain of [to_bytes], in the source's order.  A [bool]
    is an [int] for [isinstance], so it reaches the numeric branch. *)
Definition to_bytes (command : PyVal) : result PyVal :=
  match command with
  | PyBytes _ | PyByteArray _ => Ok command
  | PyNone => Ok (PyBytes [])
  | PyStr s => new_bytes (str_encode s)
  | PyList items | PyTuple items => new_bytes (bytes_of_items items)
  | PyBool _ | PyInt _ | PyFloat _ =>
      match str_of_number command with
      | Ok text => new_bytes (str_encode text)
      | Raise e => Raise e
      end
  | PyOther _ _ => Raise (TypeError_InvalidInput (type_name command))
  end.

(** ** Slices *)

(** The position a slice bound [i] denotes in a sequence of length [len]:
    a negative bound counts from the end, and both ends are clipped. *)
Definition slice_bound (len : nat) (i : Z) : nat :=
  if i <? 0 then Z.to_nat (Z.max 0 (Z.of_nat len + i))
  else Z.to_nat (Z.min i (Z.of_nat len)).

(** [b[:i]] *)
Definition slice_to (b : bytes) (i : Z) : bytes :=
  take (slice_bound (length b) i) b.

(** [b[i:]] *)
Definition slice_from (b : bytes) (i : Z) : bytes :=
  drop (slice_bound (length b) i) b.

(** [a == b] on byte strings. *)
Fixpoint bytes_eqb (a b : bytes) : bool :=
  match a, b with
  | [], [] => true
  | x :: a', y :: b' => Byte.eqb x y && bytes_eqb a' b'
  | _, _ => false
  end.

(** Truth value of a byte string: non-empty. *)
Definition truthy (b : bytes) : bool :=
  match b with [] => false | _ :: _ => true end.

(** ** The adapter *)

(** The attributes of a [ProtocolAdapter].  [_index] starts at 0 and is only
    ever incremented, so it is a natural number.  Each member of
    [comm_pairs] is unpacked into two names, so it is a pair.  The buffers
    are held by content: they are only ever rebound to new objects (a
    slice, a concatenation starting from a [bytes]), never changed in
    place, so a [bytearray] of [comm_pairs] stored in the read buffer is
    not altered through it. *)
Record ProtocolAdapter : Type := mkAdapter {
  comm_pairs : list (PyVal * PyVal);
  _read_buffer : bytes;
  _write_buffer : bytes;
  _index : nat
}.

(** [ProtocolAdapter(comm_pairs)] *)
Definition init (pairs : list (PyVal * PyVal)) : ProtocolAdapter :=
  {| comm_pairs := pairs; _read_buffer := []; _write_buffer := [];
     _index := 0 |}.

(** A method body: it runs from the attributes it finds, and returns the
    attributes it leaves together with its value or the exception raised. *)
Definition M (A : Type) : Type := ProtocolAdapter -> ProtocolAdapter * result A.

Definition ret {A} (a : A) : M A := fun s => (s, Ok a).

Definition raise {A} (e : exn) : M A := fun s => (s, Raise e).

Definition bind {A C} (m : M A) (k : A -> M C) : M C :=
  fun s =>
    match m s with
    | (s', Ok a) => k a s'
    | (s', Raise e) => (s', Raise e)
    end.

Definition lift {A} (r : result A) : M A := fun s => (s, r).

Definition get {A} (attr : ProtocolAdapter -> A) : M A :=
  fun s => (s, Ok (attr s)).

(** Attribute assignment. *)
Definition with_read_buffer (b : bytes) (s : ProtocolAdapter)
  : ProtocolAdapter :=
  mkAdapter (comm_pairs s) b (_write_buffer s) (_index s).

Definition with_write_buffer (b : bytes) (s : ProtocolAdapter)
  : ProtocolAdapter :=
  mkAdapter (comm_pairs s) (_read_buffer s) b (_index s).

Definition with_index (i : nat) (s : ProtocolAdapter)
  : ProtocolAdapter :=
  mkAdapter (comm_pairs s) (_read_buffer s) (_write_buffer s) i.

Definition set_read_buffer (b : bytes) : M unit :=
  fun s => (with_read_buffer b s, Ok tt).

Definition set_write_buffer (b : bytes) : M unit :=
  fun s => (with_write_buffer b s, Ok tt).

Definition set_index (i : nat) : M unit :=
  fun s => (with_index i s, Ok tt).

(** [assert cond, e] *)
Definition assert_ (cond : bool) (e : exn) : M unit :=
  if cond then ret tt else raise e.

(** [self.comm_pairs[self._index]] *)
Definition current_pair : M (PyVal * PyVal) :=
  fun s =>
    match comm_pairs s !! _index s with
    | Some step => (s, Ok step)
    | None => (s, Raise IndexError)
    end.

Declare Scope py_scope.
Delimit Scope py_scope with py.
Notation "x <- m ;; k" := (bind m (fun x => k))
  (at level 20, m at level 99, k at level 200, only parsing) : py_scope.
Notation "' p <- m ;; k" := (bind m (fun x => let p := x in k))
  (at level 20, p pattern, m at level 99, k at level 200, only parsing)
  : py_scope.
Notation "m ;; k" := (bind m (fun _ => k))
  (at level 100, k at level 200, only parsing, right associativity)
  : py_scope.

Section Methods.

Local Open Scope py_scope.

(** [def write_bytes(self, content)] *)
Definition write_bytes (content : bytes) : M unit :=
  wb <- get _write_buffer ;;
  set_write_buffer (wb ++ content) ;;
  '(p_write, p_read) <- current_pair ;;
  expected <- lift (to_bytes p_write) ;;
  wb <- get _write_buffer ;;
  if bytes_eqb wb (raw expected) then
    rb <- get _read_buffer ;;
    assert_ (bytes_eqb rb []) (AssertionError_UnreadResponse rb) ;;
    set_write_buffer [] ;;
    canned <- lift (to_bytes p_read) ;;
    set_read_buffer (raw canned) ;;
    i <- get _index ;;
    set_index (i + 1)
  else ret tt.

(** [def write(self, command)] *)
Definition write (command : PyVal) : M unit :=
  content <- lift (to_bytes command) ;;
  write_bytes (raw content) ;;
  wb <- get _write_buffer ;;
  if bytes_eqb wb [] then ret tt
  else
    (* the message reads self.comm_pairs[self._index][0] *)
    step <- current_pair ;;
    raise (AssertionError_WrittenBytes wb (fst step)).

(** [def read_bytes(self, count)] *)
Definition read_bytes (count : Z) : M bytes :=
  rb <- get _read_buffer ;;
  if truthy rb then
    let read := slice_to rb count in
    set_read_buffer (slice_from rb count) ;;
    ret read
  else
    '(p_write, p_read) <- current_pair ;;
    assert_ (match p_write with PyNone => true | _ => false end)
            AssertionError_UnexpectedRead ;;
    canned <- lift (to_bytes p_read) ;;
    set_read_buffer (slice_from (raw canned) count) ;;
    i <- get _index ;;
    set_index (i + 1) ;;
    canned <- lift (to_bytes p_read) ;;
    ret (slice_to (raw canned) count).

(** [def read(self)]: the operands of [+] are evaluated left to right. *)
Definition read : M str :=
  head <- read_bytes (-1) ;;
  tail <- read_bytes 1 ;;
  lift (bytes_decode (head ++ tail)).

End Methods.

(** Running a method, then another one whatever the first one did: the
    attributes left by the first call are those the second one starts
    from. *)
Definition after {A} (m : M A) (s : ProtocolAdapter) : ProtocolAdapter :=
  fst (m s).

Definition outcome {A} (m : M A) (s : ProtocolAdapter) : result A :=
  snd (m s).

(** ** Example conversations *)

Module Examples.

Definition CMD_42 := init [(PyBytes (B "CMD"), PyBytes (B "42"))].
Definition CMD_OK := init [(PyBytes (B "CMD"), PyBytes (B "OK"))].
Definition CMD_ABCDE := init [(PyBytes (B "CMD"), PyBytes (B "ABCDE"))].
Definition CMD_None := init [(PyBytes (B "CMD"), PyNone)].
Definition CMD_X := init [(PyBytes (B "CMD"), PyBytes (B "X"))].
Definition A1_B2 :=
  init [(PyBytes (B "A"), PyBytes (B "1")); (PyBytes (B "B"), PyBytes (B "2"))].
Definition None_HELLO := init [(PyNone, PyBytes (B "HELLO"))].

(** An adapter whose read buffer holds ["42"]. *)
Definition holding_42 := with_read_buffer (B "42") (init []).

End Examples.

(** ** Outcomes and paths *)

(** The outcomes of a series of calls made one after the other on the same
    adapter; a call that raised does not stop the series. *)
Fixpoint trace {A} (calls : list (M A)) (s : ProtocolAdapter)
  : list (result A) :=
  match calls with
  | [] => []
  | m :: calls' => let (s', r) := m s in r :: trace calls' s'
  end.

(** Every call of [write_bytes] takes exactly one of six paths. *)
Inductive write_bytes_path (s : ProtocolAdapter) (content : bytes) :
  ProtocolAdapter * result unit -> Prop :=
| WB_exhausted :
    comm_pairs s !! _index s = None ->
    write_bytes_path s content
      (with_write_buffer (_write_buffer s ++ content) s, Raise IndexError)
| WB_bad_expected p_write p_read e :
    comm_pairs s !! _index s = Some (p_write, p_read) ->
    to_bytes p_write = Raise e ->
    write_bytes_path s content
      (with_write_buffer (_write_buffer s ++ content) s, Raise e)
| WB_partial p_write p_read expected :
    comm_pairs s !! _index s = Some (p_write, p_read) ->
    to_bytes p_write = Ok expected ->
    _write_buffer s ++ content <> raw expected ->
    write_bytes_path s content
      (with_write_buffer (_write_buffer s ++ content) s, Ok tt)
| WB_unread p_write p_read expected :
    comm_pairs s !! _index s = Some (p_write, p_read) ->
    to_bytes p_write = Ok expected ->
    _write_buffer s ++ content = raw expected ->
    _read_buffer s <> [] ->
    write_bytes_path s content
      (with_write_buffer (_write_buffer s ++ content) s,
       Raise (AssertionError_UnreadResponse (_read_buffer s)))
| WB_bad_canned p_write p_read expected e :
    comm_pairs s !! _index s = Some (p_write, p_read) ->
    to_bytes p_write = Ok expected ->
    _write_buffer s ++ content = raw expected ->
    _read_buffer s = [] ->
    to_bytes p_read = Raise e ->
    write_bytes_path s content (with_write_buffer [] s, Raise e)
| WB_match p_write p_read expected canned :
    comm_pairs s !! _index s = Some (p_write, p_read) ->
    to_bytes p_write = Ok expected ->
    _write_buffer s ++ content = raw expected ->
    _read_buffer s = [] ->
    to_bytes p_read = Ok canned ->
    write_bytes_path s content
      (mkAdapter (comm_pairs s) (raw canned) [] (_index s + 1), Ok tt).

(** The exceptions of [bytes(iterable)]. *)
Definition constructor_error (e : exn) : Prop :=
  match e with
  | TypeError_NotInteger _ | ValueError_ByteRange => True
  | _ => False
  end.

(** The exceptions [to_bytes] can raise. *)
Definition normalizer_error (e : exn) : Prop :=
  match e with
  | TypeError_InvalidInput _ | TypeError_NotInteger _
  | ValueError_ByteRange | ValueError_IntMaxStrDigits
  | UnicodeEncodeError => True
  | _ => False
  end.

(** ** Clients and conversations *)

Section Client.

Local Open Scope py_scope.

(** A client that writes each command and reads the reply to it, in
    order, and stops at the first exception. *)
Fixpoint converse (commands : list PyVal) : M (list str) :=
  match commands with
  | [] => ret []
  | command :: rest =>
      write command ;;
      reply <- read ;;
      replies <- converse rest ;;
      ret (reply :: replies)
  end.

End Client.

(** [conforms commands pairs replies]: each command normalizes to the same
    bytes as the write member of the pair at its position, and the read
    member of that pair normalizes to a non-empty encoding of the reply at
    that position. *)
Inductive conforms : list PyVal -> list (PyVal * PyVal) -> list str -> Prop :=
| conforms_nil : conforms [] [] []
| conforms_cons command p_write p_read written expected canned reply
    commands pairs replies :
    to_bytes command = Ok written ->
    to_bytes p_write = Ok expected ->
    raw written = raw expected ->
    to_bytes p_read = Ok canned ->
    raw canned <> [] ->
    Utf8.decode (raw canned) = Some reply ->
    conforms commands pairs replies ->
    conforms (command :: commands) ((p_write, p_read) :: pairs)
      (reply :: replies).

(** Every call of [read_bytes] takes exactly one of five paths. *)
Inductive read_bytes_path (s : ProtocolAdapter) (count : Z) :
  ProtocolAdapter * result bytes -> Prop :=
| RB_buffered :
    _read_buffer s <> [] ->
    read_bytes_path s count
      (with_read_buffer (slice_from (_read_buffer s) count) s,
       Ok (slice_to (_read_buffer s) count))
| RB_exhausted :
    _read_buffer s = [] ->
    comm_pairs s !! _index s = None ->
    read_bytes_path s count (s, Raise IndexError)
| RB_unexpected p_write p_read :
    _read_buffer s = [] ->
    comm_pairs s !! _index s = Some (p_write, p_read) ->
    p_write <> PyNone ->
    read_bytes_path s count (s, Raise AssertionError_UnexpectedRead)
| RB_bad_canned p_read e :
    _read_buffer s = [] ->
    comm_pairs s !! _index s = Some (PyNone, p_read) ->
    to_bytes p_read = Raise e ->
    read_bytes_path s count (s, Raise e)
| RB_load p_read canned :
    _read_buffer s = [] ->
    comm_pairs s !! _index s = Some (PyNone, p_read) ->
    to_bytes p_read = Ok canned ->
    read_bytes_path s count
      (mkAdapter (comm_pairs s) (slice_from (raw canned) count)
         (_write_buffer s) (_index s + 1),
       Ok (slice_to (raw canned) count)).

(** [s'] is [s] moved on by at most [k] pairs: the pairs are the same, and
    [_index] has not gone back, has advanced by at most [k], and is still
    within the pairs if it was. *)
Definition advanced (k : nat) (s s' : ProtocolAdapter) : Prop :=
  comm_pairs s' = comm_pairs s
  /\ (_index s <= _index s' <= _index s + k)%nat
  /\ ((_index s <= length (comm_pairs s))%nat ->
      (_index s' <= length (comm_pairs s'))%nat).

(** A surrogate code point. *)
Definition is_surrogate (c : N) : bool :=
  ((0xD800 <=? c) && (c <? 0xE000))%N.

(** [b] is the byte [bytes()] makes of the item [v]: [v] is an [int], a
    [bool] or an object with [__index__], and the integer it stands for is
    the value of [b]. *)
Definition item_byte (v : PyVal) (b : byte) : Prop :=
  index_of_item v = Some (Z.of_N (Byte.to_N b)).

(** ** Tactics *)

(** Unfold the monad and compute. *)
Ltac run :=
  unfold bind, get, lift, ret, raise, assert_, current_pair,
    set_read_buffer, set_write_buffer, set_index,
    with_read_buffer, with_write_buffer, with_index; simpl.

(** [lia] with division and remainder by constants. *)
Ltac lia_div := zify; Z.to_euclidean_division_equations; lia.

(** Settle a comparison of the goal. *)
Ltac test_true t := replace t with true by (symmetry; first
  [ apply N.ltb_lt | apply N.leb_le | apply N.eqb_eq ]; lia_div).
Ltac test_false t := replace t with false by (symmetry; first
  [ apply N.ltb_ge | apply N.leb_gt | apply N.eqb_neq ]; lia_div).

(** * Properties *)

(** ** Byte strings and slices *)

Lemma bytes_eqb_eq (a b : bytes) : bytes_eqb a b = true <-> a = b.
Proof.
  revert b; induction a as [|x a IH]; intros [|y b]; simpl; try easy.
  rewrite andb_true_iff, IH. split.
  - intros [H ->]. apply Byte.byte_dec_bl in H. now subst.
  - intros [= -> ->]. split; [now apply Byte.byte_dec_lb | reflexivity].
Qed.

Lemma bytes_eqb_refl (a : bytes) : bytes_eqb a a = true.
Proof. now apply bytes_eqb_eq. Qed.

Lemma bytes_eqb_neq (a b : bytes) : a <> b -> bytes_eqb a b = false.
Proof.
  intros H. destruct (bytes_eqb a b) eqn:E; [|reflexivity].
  now apply bytes_eqb_eq in E.
Qed.

Lemma bytes_eqb_nil (a : bytes) : bytes_eqb a [] = negb (truthy a).
Proof. now destruct a. Qed.

Lemma truthy_nonempty (a : bytes) : truthy a = true <-> a <> [].
Proof. destruct a; simpl; split; easy. Qed.

(** A slice bound always splits the sequence in two. *)
Lemma slice_split (b : bytes) (i : Z) : slice_to b i ++ slice_from b i = b.
Proof. apply take_drop. Qed.

Lemma take_clipped (b : bytes) (n : nat) :
  take (Nat.min n (length b)) b = take n b.
Proof.
  destruct (Nat.le_gt_cases n (length b)) as [H|H].
  - now rewrite Nat.min_l.
  - rewrite Nat.min_r, !take_ge by lia. reflexivity.
Qed.

Lemma drop_clipped (b : bytes) (n : nat) :
  drop (Nat.min n (length b)) b = drop n b.
Proof.
  destruct (Nat.le_gt_cases n (length b)) as [H|H].
  - now rewrite Nat.min_l.
  - rewrite Nat.min_r, !drop_ge by lia. reflexivity.
Qed.

Lemma slice_bound_nonneg (len : nat) (i : Z) :
  0 <= i -> slice_bound len i = Nat.min (Z.to_nat i) len.
Proof.
  intros H. unfold slice_bound.
  destruct (Z.ltb_spec i 0); lia.
Qed.

Lemma slice_bound_neg (len : nat) (i : Z) :
  i < 0 -> slice_bound len i = (len - Nat.min len (Z.to_nat (- i)))%nat.
Proof.
  intros H. unfold slice_bound.
  destruct (Z.ltb_spec i 0); lia.
Qed.

(** ** UTF-8 *)

Section Utf8Facts.

Local Open Scope N_scope.

Lemma to_N_byte_of_N (n : N) :
  Byte.to_N (Utf8.byte_of_N n) = (n mod 256)%N.
Proof.
  unfold Utf8.byte_of_N.
  destruct (Byte.of_N (n mod 256)) as [b|] eqn:E.
  - now apply Byte.to_of_N.
  - apply Byte.of_N_None_iff in E.
    pose proof (N.mod_upper_bound n 256). lia.
Qed.

Lemma byte_of_N_to_N (b : byte) : Utf8.byte_of_N (Byte.to_N b) = b.
Proof.
  unfold Utf8.byte_of_N.
  rewrite N.mod_small by (pose proof (Byte.to_N_bounded b); lia).
  now rewrite Byte.of_to_N.
Qed.

(** The bit masks of the decoder, as quotients and remainders. *)
Lemma byte_masks (b : byte) :
  N.land (Byte.to_N b) 0xC0 = Byte.to_N b / 64 * 64
  /\ N.land (Byte.to_N b) 0x3F = Byte.to_N b mod 64
  /\ N.land (Byte.to_N b) 0xE0 = Byte.to_N b / 32 * 32
  /\ N.land (Byte.to_N b) 0x1F = Byte.to_N b mod 32
  /\ N.land (Byte.to_N b) 0xF0 = Byte.to_N b / 16 * 16
  /\ N.land (Byte.to_N b) 0x0F = Byte.to_N b mod 16
  /\ N.land (Byte.to_N b) 0xF8 = Byte.to_N b / 8 * 8
  /\ N.land (Byte.to_N b) 0x07 = Byte.to_N b mod 8.
Proof. destruct b; vm_compute; repeat split; reflexivity. Qed.

Lemma decode_unfold (l : bytes) :
  Utf8.decode l =
    match l with
    | [] => Some []
    | b0 :: t0 =>
        let n0 := Byte.to_N b0 in
        if n0 <? 0x80 then option_map (cons n0) (Utf8.decode t0)
        else if N.land n0 0xE0 =? 0xC0 then
          match t0 with
          | b1 :: t1 =>
              let c := N.shiftl (N.land n0 0x1F) 6 + Utf8.payload b1 in
              if Utf8.is_cont b1 && Utf8.scalar_in 0x80 0x7FF c
              then option_map (cons c) (Utf8.decode t1) else None
          | _ => None
          end
        else if N.land n0 0xF0 =? 0xE0 then
          match t0 with
          | b1 :: b2 :: t2 =>
              let c := N.shiftl (N.land n0 0x0F) 12
                       + N.shiftl (Utf8.payload b1) 6 + Utf8.payload b2 in
              if Utf8.is_cont b1 && Utf8.is_cont b2
                 && Utf8.scalar_in 0x800 0xFFFF c
              then option_map (cons c) (Utf8.decode t2) else None
          | _ => None
          end
        else if N.land n0 0xF8 =? 0xF0 then
          match t0 with
          | b1 :: b2 :: b3 :: t3 =>
              let c := N.shiftl (N.land n0 0x07) 18
                       + N.shiftl (Utf8.payload b1) 12
                       + N.shiftl (Utf8.payload b2) 6 + Utf8.payload b3 in
              if Utf8.is_cont b1 && Utf8.is_cont b2 && Utf8.is_cont b3
                 && Utf8.scalar_in 0x10000 0x10FFFF c
              then option_map (cons c) (Utf8.decode t3) else None
          | _ => None
          end
        else None
    end.
Proof. destruct l; reflexivity. Qed.

Lemma cont_spec (c shift : N) :
  Utf8.is_cont (Utf8.cont c shift) = true
  /\ Utf8.payload (Utf8.cont c shift) = (c / 2 ^ shift) mod 64.
Proof.
  unfold Utf8.is_cont, Utf8.payload, Utf8.cont.
  destruct (byte_masks (Utf8.byte_of_N (128 + N.land (N.shiftr c shift) 63)))
    as (-> & -> & _).
  rewrite to_N_byte_of_N, N.shiftr_div_pow2.
  change 63 with (N.ones 6). rewrite N.land_ones. change (2 ^ 6) with 64.
  generalize (c / 2 ^ shift). intros q.
  split; [apply N.eqb_eq|]; lia_div.
Qed.

Lemma lead_spec (base x : N) :
  base + x < 256 ->
  Byte.to_N (Utf8.byte_of_N (base + x)) = base + x.
Proof. intros H. rewrite to_N_byte_of_N. now apply N.mod_small. Qed.

Lemma decode_encode_cp (c : N) (bs rest : bytes) :
  Utf8.encode_cp c = Some bs ->
  Utf8.decode (bs ++ rest) = option_map (cons c) (Utf8.decode rest).
Proof.
  unfold Utf8.encode_cp.
  destruct (N.ltb_spec c 0x80) as [H1|H1]; [|
  destruct (N.ltb_spec c 0x800) as [H2|H2]; [|
  destruct (N.ltb_spec c 0x10000) as [H3|H3]; [|
  destruct (N.ltb_spec c 0x110000) as [H4|H4]; [|discriminate]]]].
  - intros [= <-]. simpl app. rewrite decode_unfold. cbv zeta.
    rewrite to_N_byte_of_N, N.mod_small by lia.
    now test_true (c <? 128).
  - intros [= <-]. simpl app. rewrite decode_unfold. cbv zeta.
    destruct (byte_masks (Utf8.byte_of_N (192 + N.shiftr c 6)))
      as (_ & _ & -> & -> & _).
    destruct (cont_spec c 0) as [-> ->].
    rewrite !N.shiftr_div_pow2, !N.shiftl_mul_pow2.
    change (2 ^ 6) with 64. change (2 ^ 0) with 1. rewrite N.div_1_r.
    rewrite lead_spec by lia_div.
    replace ((192 + c / 64) mod 32 * 64 + c mod 64) with c by lia_div.
    test_false (192 + c / 64 <? 128).
    test_true ((192 + c / 64) / 32 * 32 =? 192).
    unfold Utf8.scalar_in.
    test_true (128 <=? c). test_true (c <=? 2047). test_false (55296 <=? c).
    reflexivity.
  - destruct (N.leb_spec 0xD800 c) as [H5|H5];
      [destruct (N.ltb_spec c 0xE000) as [H6|H6]; [discriminate|] |];
      simpl andb; cbv iota.
    + intros [= <-]. simpl app. rewrite decode_unfold. cbv zeta.
      destruct (byte_masks (Utf8.byte_of_N (224 + N.shiftr c 12)))
        as (_ & _ & -> & _ & -> & -> & _).
      destruct (cont_spec c 0) as [-> ->].
      destruct (cont_spec c 6) as [-> ->].
      rewrite !N.shiftr_div_pow2, !N.shiftl_mul_pow2.
      change (2 ^ 6) with 64. change (2 ^ 0) with 1. change (2 ^ 12) with 4096.
      rewrite N.div_1_r.
      rewrite lead_spec by lia_div.
      replace ((224 + c / 4096) mod 16 * 4096 + c / 64 mod 64 * 64 + c mod 64)
        with c by lia_div.
      test_false (224 + c / 4096 <? 128).
      test_false ((224 + c / 4096) / 32 * 32 =? 192).
      test_true ((224 + c / 4096) / 16 * 16 =? 224).
      unfold Utf8.scalar_in.
      test_true (2048 <=? c). test_true (c <=? 65535). test_false (c <? 57344).
      now rewrite andb_false_r.
    + intros [= <-]. simpl app. rewrite decode_unfold. cbv zeta.
      destruct (byte_masks (Utf8.byte_of_N (224 + N.shiftr c 12)))
        as (_ & _ & -> & _ & -> & -> & _).
      destruct (cont_spec c 0) as [-> ->].
      destruct (cont_spec c 6) as [-> ->].
      rewrite !N.shiftr_div_pow2, !N.shiftl_mul_pow2.
      change (2 ^ 6) with 64. change (2 ^ 0) with 1. change (2 ^ 12) with 4096.
      rewrite N.div_1_r.
      rewrite lead_spec by lia_div.
      replace ((224 + c / 4096) mod 16 * 4096 + c / 64 mod 64 * 64 + c mod 64)
        with c by lia_div.
      test_false (224 + c / 4096 <? 128).
      test_false ((224 + c / 4096) / 32 * 32 =? 192).
      test_true ((224 + c / 4096) / 16 * 16 =? 224).
      unfold Utf8.scalar_in.
      test_true (2048 <=? c). test_true (c <=? 65535). test_false (55296 <=? c).
      reflexivity.
  - intros [= <-]. simpl app. rewrite decode_unfold. cbv zeta.
    destruct (byte_masks (Utf8.byte_of_N (240 + N.shiftr c 18)))
      as (_ & _ & -> & _ & -> & _ & -> & ->).
    destruct (cont_spec c 0) as [-> ->].
    destruct (cont_spec c 6) as [-> ->].
    destruct (cont_spec c 12) as [-> ->].
    rewrite !N.shiftr_div_pow2, !N.shiftl_mul_pow2.
    change (2 ^ 6) with 64. change (2 ^ 0) with 1. change (2 ^ 12) with 4096.
    change (2 ^ 18) with 262144.
    rewrite N.div_1_r.
    rewrite lead_spec by lia_div.
    replace ((240 + c / 262144) mod 8 * 262144 + c / 4096 mod 64 * 4096
             + c / 64 mod 64 * 64 + c mod 64) with c by lia_div.
    test_false (240 + c / 262144 <? 128).
    test_false ((240 + c / 262144) / 32 * 32 =? 192).
    test_false ((240 + c / 262144) / 16 * 16 =? 224).
    test_true ((240 + c / 262144) / 8 * 8 =? 240).
    unfold Utf8.scalar_in.
    test_true (65536 <=? c). test_true (c <=? 1114111). test_false (c <? 57344).
    now rewrite andb_false_r.
Qed.

(** Encoding and then decoding gives the text back. *)
Lemma decode_encode (s : str) (b : bytes) :
  Utf8.encode s = Some b -> Utf8.decode b = Some s.
Proof.
  revert b. induction s as [|c s IH]; intros b; simpl.
  - now intros [= <-].
  - destruct (Utf8.encode_cp c) as [bs|] eqn:Hc; [|discriminate].
    destruct (Utf8.encode s) as [rest|]; [|discriminate].
    intros [= <-]. rewrite (decode_encode_cp _ _ _ Hc), (IH rest eq_refl).
    reflexivity.
Qed.

Lemma is_cont_spec (b : byte) :
  Utf8.is_cont b = true -> Byte.to_N b = 128 + Utf8.payload b.
Proof.
  unfold Utf8.is_cont, Utf8.payload. intros H. apply N.eqb_eq in H.
  destruct (byte_masks b) as (Hhi & -> & _). rewrite Hhi in H.
  pose proof (Byte.to_N_bounded b). lia_div.
Qed.

Lemma payload_bound (b : byte) : Utf8.payload b < 64.
Proof.
  unfold Utf8.payload. destruct (byte_masks b) as (_ & -> & _). lia_div.
Qed.

Lemma scalar_in_spec (lo hi c : N) :
  Utf8.scalar_in lo hi c = true ->
  lo <= c <= hi /\ (c < 0xD800 \/ 0xE000 <= c).
Proof.
  unfold Utf8.scalar_in. rewrite !andb_true_iff, negb_true_iff, andb_false_iff.
  rewrite !N.leb_le, N.leb_gt, N.ltb_ge. tauto.
Qed.

Lemma cont_payload (c shift : N) (b : byte) :
  Utf8.is_cont b = true ->
  (c / 2 ^ shift) mod 64 = Utf8.payload b ->
  Utf8.cont c shift = b.
Proof.
  intros Hb Hp. unfold Utf8.cont.
  rewrite N.shiftr_div_pow2. change 63 with (N.ones 6).
  rewrite N.land_ones. change (2 ^ 6) with 64.
  rewrite Hp, <- (is_cont_spec b Hb). apply byte_of_N_to_N.
Qed.

Lemma lead_byte (base x : N) (b : byte) :
  Byte.to_N b = base + x -> Utf8.byte_of_N (base + x) = b.
Proof. intros <-. apply byte_of_N_to_N. Qed.

Lemma encode_cp_2 (b0 b1 : byte) (c : N) :
  N.land (Byte.to_N b0) 0xE0 = 0xC0 ->
  Utf8.is_cont b1 = true ->
  c = N.shiftl (N.land (Byte.to_N b0) 0x1F) 6 + Utf8.payload b1 ->
  Utf8.scalar_in 0x80 0x7FF c = true ->
  Utf8.encode_cp c = Some [b0; b1].
Proof.
  intros H0 H1 Hc Hs. apply scalar_in_spec in Hs.
  pose proof (payload_bound b1) as P1.
  destruct (byte_masks b0) as (_ & _ & E0 & E1 & _).
  rewrite E0 in H0. rewrite E1, N.shiftl_mul_pow2 in Hc.
  change (2 ^ 6) with 64 in Hc.
  pose proof (Byte.to_N_bounded b0) as B0.
  unfold Utf8.encode_cp.
  test_false (c <? 128). test_true (c <? 2048).
  rewrite N.shiftr_div_pow2. change (2 ^ 6) with 64.
  rewrite (lead_byte 192 (c / 64) b0) by lia_div.
  rewrite (cont_payload c 0 b1 H1)
    by (change (2 ^ 0) with 1; rewrite N.div_1_r; lia_div).
  reflexivity.
Qed.

Lemma encode_cp_3 (b0 b1 b2 : byte) (c : N) :
  N.land (Byte.to_N b0) 0xF0 = 0xE0 ->
  Utf8.is_cont b1 = true ->
  Utf8.is_cont b2 = true ->
  c = N.shiftl (N.land (Byte.to_N b0) 0x0F) 12
      + N.shiftl (Utf8.payload b1) 6 + Utf8.payload b2 ->
  Utf8.scalar_in 0x800 0xFFFF c = true ->
  Utf8.encode_cp c = Some [b0; b1; b2].
Proof.
  intros H0 H1 H2 Hc Hs. apply scalar_in_spec in Hs.
  pose proof (payload_bound b1) as P1. pose proof (payload_bound b2) as P2.
  destruct (byte_masks b0) as (_ & _ & _ & _ & E0 & E1 & _).
  rewrite E0 in H0. rewrite E1, !N.shiftl_mul_pow2 in Hc.
  change (2 ^ 6) with 64 in Hc. change (2 ^ 12) with 4096 in Hc.
  pose proof (Byte.to_N_bounded b0) as B0.
  unfold Utf8.encode_cp.
  test_false (c <? 128). test_false (c <? 2048). test_true (c <? 65536).
  replace ((55296 <=? c) && (c <? 57344)) with false
    by (symmetry; apply andb_false_iff; rewrite N.leb_gt, N.ltb_ge; lia).
  rewrite N.shiftr_div_pow2. change (2 ^ 12) with 4096.
  rewrite (lead_byte 224 (c / 4096) b0) by lia_div.
  rewrite (cont_payload c 6 b1 H1) by (change (2 ^ 6) with 64; lia_div).
  rewrite (cont_payload c 0 b2 H2)
    by (change (2 ^ 0) with 1; rewrite N.div_1_r; lia_div).
  reflexivity.
Qed.

Lemma encode_cp_4 (b0 b1 b2 b3 : byte) (c : N) :
  N.land (Byte.to_N b0) 0xF8 = 0xF0 ->
  Utf8.is_cont b1 = true ->
  Utf8.is_cont b2 = true ->
  Utf8.is_cont b3 = true ->
  c = N.shiftl (N.land (Byte.to_N b0) 0x07) 18
      + N.shiftl (Utf8.payload b1) 12
      + N.shiftl (Utf8.payload b2) 6 + Utf8.payload b3 ->
  Utf8.scalar_in 0x10000 0x10FFFF c = true ->
  Utf8.encode_cp c = Some [b0; b1; b2; b3].
Proof.
  intros H0 H1 H2 H3 Hc Hs. apply scalar_in_spec in Hs.
  pose proof (payload_bound b1) as P1. pose proof (payload_bound b2) as P2.
  pose proof (payload_bound b3) as P3.
  destruct (byte_masks b0) as (_ & _ & _ & _ & _ & _ & E0 & E1).
  rewrite E0 in H0. rewrite E1, !N.shiftl_mul_pow2 in Hc.
  change (2 ^ 6) with 64 in Hc. change (2 ^ 12) with 4096 in Hc.
  change (2 ^ 18) with 262144 in Hc.
  pose proof (Byte.to_N_bounded b0) as B0.
  unfold Utf8.encode_cp.
  test_false (c <? 128). test_false (c <? 2048). test_false (c <? 65536).
  test_true (c <? 1114112).
  rewrite N.shiftr_div_pow2. change (2 ^ 18) with 262144.
  rewrite (lead_byte 240 (c / 262144) b0) by lia_div.
  rewrite (cont_payload c 12 b1 H1) by (change (2 ^ 12) with 4096; lia_div).
  rewrite (cont_payload c 6 b2 H2) by (change (2 ^ 6) with 64; lia_div).
  rewrite (cont_payload c 0 b3 H3)
    by (change (2 ^ 0) with 1; rewrite N.div_1_r; lia_div).
  reflexivity.
Qed.

Lemma encode_decode_bounded (n : nat) (b : bytes) (s : str) :
  (length b <= n)%nat -> Utf8.decode b = Some s -> Utf8.encode s = Some b.
Proof.
  revert b s. induction n as [|n IH]; intros b s Hlen; rewrite decode_unfold.
  { destruct b; [now intros [= <-] | simpl in Hlen; lia]. }
  destruct b as [|b0 t0]; [now intros [= <-]|]. simpl in Hlen. cbv zeta.
  destruct (N.ltb_spec (Byte.to_N b0) 128) as [Ha|Ha].
  { destruct (Utf8.decode t0) as [s0|] eqn:E; [|discriminate].
    intros [= <-]. simpl. rewrite (IH t0 s0) by (trivial; lia).
    unfold Utf8.encode_cp. test_true (Byte.to_N b0 <? 128).
    now rewrite byte_of_N_to_N. }
  destruct (N.eqb_spec (N.land (Byte.to_N b0) 224) 192) as [H2|_].
  { destruct t0 as [|b1 t1]; [discriminate|]. simpl in Hlen.
    destruct (Utf8.is_cont b1) eqn:C1; [|discriminate].
    destruct (Utf8.scalar_in 128 2047 _) eqn:Hs; [|discriminate].
    destruct (Utf8.decode t1) as [s1|] eqn:E; [|discriminate].
    intros [= <-]. simpl.
    rewrite (IH t1 s1) by (trivial; lia).
    now rewrite (encode_cp_2 b0 b1 _ H2 C1 eq_refl Hs). }
  destruct (N.eqb_spec (N.land (Byte.to_N b0) 240) 224) as [H3|_].
  { destruct t0 as [|b1 [|b2 t2]]; try discriminate. simpl in Hlen.
    destruct (Utf8.is_cont b1) eqn:C1; [|discriminate].
    destruct (Utf8.is_cont b2) eqn:C2; [|discriminate].
    destruct (Utf8.scalar_in 2048 65535 _) eqn:Hs; [|discriminate].
    destruct (Utf8.decode t2) as [s2|] eqn:E; [|discriminate].
    intros [= <-]. simpl.
    rewrite (IH t2 s2) by (trivial; lia).
    now rewrite (encode_cp_3 b0 b1 b2 _ H3 C1 C2 eq_refl Hs). }
  destruct (N.eqb_spec (N.land (Byte.to_N b0) 248) 240) as [H4|_];
    [|discriminate].
  destruct t0 as [|b1 [|b2 [|b3 t3]]]; try discriminate. simpl in Hlen.
  destruct (Utf8.is_cont b1) eqn:C1; [|discriminate].
  destruct (Utf8.is_cont b2) eqn:C2; [|discriminate].
  destruct (Utf8.is_cont b3) eqn:C3; [|discriminate].
  destruct (Utf8.scalar_in 65536 1114111 _) eqn:Hs; [|discriminate].
  destruct (Utf8.decode t3) as [s3|] eqn:E; [|discriminate].
  intros [= <-]. simpl.
  rewrite (IH t3 s3) by (trivial; lia).
  now rewrite (encode_cp_4 b0 b1 b2 b3 _ H4 C1 C2 C3 eq_refl Hs).
Qed.

(** The decoder accepts exactly the encodings of texts. *)
Lemma utf8_valid (b : bytes) (s : str) :
  Utf8.decode b = Some s <-> Utf8.encode s = Some b.
Proof.
  split; [apply (encode_decode_bounded (length b)); lia | apply decode_encode].
Qed.

End Utf8Facts.

(** ** The paths through [write_bytes] *)

Section WriteBytesPaths.

Variables (s : ProtocolAdapter) (content : bytes).

Lemma write_bytes_exhausted :
  comm_pairs s !! _index s = None ->
  write_bytes content s
  = (with_write_buffer (_write_buffer s ++ content) s, Raise IndexError).
Proof.
  intros H. unfold write_bytes. run.
  rewrite H; run. reflexivity.
Qed.

Variables (p_write p_read : PyVal).
Hypothesis Hstep : comm_pairs s !! _index s = Some (p_write, p_read).

Lemma write_bytes_bad_expected (e : exn) :
  to_bytes p_write = Raise e ->
  write_bytes content s
  = (with_write_buffer (_write_buffer s ++ content) s, Raise e).
Proof.
  intros H. unfold write_bytes. run.
  rewrite Hstep; run. rewrite H; run. reflexivity.
Qed.

Variable expected : PyVal.
Hypothesis Hexpected : to_bytes p_write = Ok expected.

Lemma write_bytes_partial :
  _write_buffer s ++ content <> raw expected ->
  write_bytes content s
  = (with_write_buffer (_write_buffer s ++ content) s, Ok tt).
Proof.
  intros H. unfold write_bytes. run.
  rewrite Hstep; run. rewrite Hexpected; run.
  rewrite (bytes_eqb_neq _ _ H); run. reflexivity.
Qed.

Hypothesis Hfull : _write_buffer s ++ content = raw expected.

Lemma write_bytes_unread :
  _read_buffer s <> [] ->
  write_bytes content s
  = (with_write_buffer (_write_buffer s ++ content) s,
     Raise (AssertionError_UnreadResponse (_read_buffer s))).
Proof.
  intros H. unfold write_bytes. run.
  rewrite Hstep; run. rewrite Hexpected; run.
  rewrite (proj2 (bytes_eqb_eq _ _) Hfull); run.
  rewrite (bytes_eqb_neq _ _ H); run. reflexivity.
Qed.

Lemma write_bytes_bad_canned (e : exn) :
  _read_buffer s = [] ->
  to_bytes p_read = Raise e ->
  write_bytes content s = (with_write_buffer [] s, Raise e).
Proof.
  intros H He. unfold write_bytes. run.
  rewrite Hstep; run. rewrite Hexpected; run.
  rewrite (proj2 (bytes_eqb_eq _ _) Hfull); run.
  rewrite H; run. rewrite He; run. reflexivity.
Qed.

Lemma write_bytes_match (canned : PyVal) :
  _read_buffer s = [] ->
  to_bytes p_read = Ok canned ->
  write_bytes content s
  = (mkAdapter (comm_pairs s) (raw canned) [] (_index s + 1), Ok tt).
Proof.
  intros H Hc. unfold write_bytes. run.
  rewrite Hstep; run. rewrite Hexpected; run.
  rewrite (proj2 (bytes_eqb_eq _ _) Hfull); run.
  rewrite H; run. rewrite Hc; run. reflexivity.
Qed.

End WriteBytesPaths.

(** ** The paths through [read_bytes] *)

Section ReadBytesPaths.

Variables (s : ProtocolAdapter) (count : Z).

Lemma read_bytes_buffered :
  _read_buffer s <> [] ->
  read_bytes count s
  = (with_read_buffer (slice_from (_read_buffer s) count) s,
     Ok (slice_to (_read_buffer s) count)).
Proof.
  intros H. unfold read_bytes. run.
  apply truthy_nonempty in H. rewrite H; run. reflexivity.
Qed.

Hypothesis Hempty : _read_buffer s = [].

Lemma read_bytes_exhausted :
  comm_pairs s !! _index s = None ->
  read_bytes count s = (s, Raise IndexError).
Proof.
  intros H. unfold read_bytes. run.
  rewrite Hempty; run. rewrite H; run. reflexivity.
Qed.

Variables (p_write p_read : PyVal).
Hypothesis Hstep : comm_pairs s !! _index s = Some (p_write, p_read).

Lemma read_bytes_unexpected :
  p_write <> PyNone ->
  read_bytes count s = (s, Raise AssertionError_UnexpectedRead).
Proof.
  intros H. unfold read_bytes. run.
  rewrite Hempty; run. rewrite Hstep; run. now destruct p_write.
Qed.

Hypothesis Hnone : p_write = PyNone.

Lemma read_bytes_bad_canned (e : exn) :
  to_bytes p_read = Raise e ->
  read_bytes count s = (s, Raise e).
Proof.
  intros H. unfold read_bytes. run.
  rewrite Hempty; run. rewrite Hstep; run. rewrite Hnone; run.
  rewrite H; run. reflexivity.
Qed.

Lemma read_bytes_load (canned : PyVal) :
  to_bytes p_read = Ok canned ->
  read_bytes count s
  = (mkAdapter (comm_pairs s) (slice_from (raw canned) count)
       (_write_buffer s) (_index s + 1),
     Ok (slice_to (raw canned) count)).
Proof.
  intros H. unfold read_bytes. run.
  rewrite Hempty; run. rewrite Hstep; run. rewrite Hnone; run.
  rewrite H; run. reflexivity.
Qed.

End ReadBytesPaths.

Lemma bytes_eq_dec (a b : bytes) : {a = b} + {a <> b}.
Proof.
  destruct (bytes_eqb a b) eqn:E.
  - left. now apply bytes_eqb_eq.
  - right. intros H. apply bytes_eqb_eq in H. congruence.
Qed.

Lemma write_bytes_path_total (s : ProtocolAdapter) (content : bytes) :
  write_bytes_path s content (write_bytes content s).
Proof.
  destruct (comm_pairs s !! _index s) as [[p_write p_read]|] eqn:Hstep.
  2: { rewrite write_bytes_exhausted by exact Hstep. now constructor. }
  destruct (to_bytes p_write) as [expected|e] eqn:Hexp.
  2: { rewrite (write_bytes_bad_expected _ _ _ _ Hstep e Hexp).
       econstructor; eassumption. }
  destruct (bytes_eq_dec (_write_buffer s ++ content) (raw expected))
    as [Hfull|Hpart].
  2: { rewrite (write_bytes_partial _ _ _ _ Hstep _ Hexp Hpart).
       econstructor; eassumption. }
  destruct (bytes_eq_dec (_read_buffer s) []) as [Hempty|Hunread].
  2: { rewrite (write_bytes_unread _ _ _ _ Hstep _ Hexp Hfull Hunread).
       econstructor; eassumption. }
  destruct (to_bytes p_read) as [canned|e] eqn:Hcanned.
  - rewrite (write_bytes_match _ _ _ _ Hstep _ Hexp Hfull _ Hempty Hcanned).
    econstructor; eassumption.
  - rewrite
      (write_bytes_bad_canned _ _ _ _ Hstep _ Hexp Hfull _ Hempty Hcanned).
    econstructor; eassumption.
Qed.

(** ** What [to_bytes] can raise *)

Lemma constructor_error_normalizer (e : exn) :
  constructor_error e -> normalizer_error e.
Proof. now destruct e. Qed.

Lemma byte_of_item_raises (v : PyVal) (e : exn) :
  byte_of_item v = Raise e -> constructor_error e.
Proof.
  unfold byte_of_item. destruct (index_of_item v) as [n|].
  - destruct ((0 <=? n) && (n <? 256)); [discriminate|].
    intros [= <-]. exact I.
  - intros [= <-]. exact I.
Qed.

Lemma bytes_of_items_raises (items : list PyVal) (e : exn) :
  bytes_of_items items = Raise e -> constructor_error e.
Proof.
  induction items as [|v rest IH]; simpl; [discriminate|].
  destruct (byte_of_item v) as [b|e'] eqn:Hv.
  - destruct (bytes_of_items rest); [discriminate|].
    intros [= ->]. now apply IH.
  - intros [= ->]. exact (byte_of_item_raises _ _ Hv).
Qed.

Lemma new_bytes_ok (r : result bytes) (w : PyVal) :
  new_bytes r = Ok w -> exists b : bytes, r = Ok b /\ w = PyBytes b.
Proof. destruct r; simpl; [intros [= <-]; eauto | discriminate]. Qed.

Lemma new_bytes_raises (r : result bytes) (e : exn) :
  new_bytes r = Raise e -> r = Raise e.
Proof. destruct r; simpl; [discriminate | now intros [= <-]]. Qed.

Lemma str_encode_raises (text : str) (e : exn) :
  str_encode text = Raise e -> e = UnicodeEncodeError.
Proof.
  unfold str_encode. destruct (Utf8.encode text); [discriminate|].
  now intros [= <-].
Qed.

Lemma str_of_number_raises (v : PyVal) (e : exn) :
  str_of_number v = Raise e -> e = ValueError_IntMaxStrDigits.
Proof.
  destruct v; simpl; try discriminate. unfold str_of_int.
  destruct (_ <? _)%N; [now intros [= <-] | discriminate].
Qed.

Lemma to_bytes_raises (v : PyVal) (e : exn) :
  to_bytes v = Raise e -> normalizer_error e.
Proof.
  assert (Henc : forall text, new_bytes (str_encode text) = Raise e ->
                   normalizer_error e).
  { intros text H. apply new_bytes_raises, str_encode_raises in H.
    now subst. }
  assert (Hnum : forall w, match str_of_number w with
                           | Ok text => new_bytes (str_encode text)
                           | Raise e' => Raise e'
                           end = Raise e -> normalizer_error e).
  { intros w. destruct (str_of_number w) as [text|e'] eqn:Hw; [apply Henc|].
    intros [= ->]. apply str_of_number_raises in Hw. now subst. }
  assert (Hseq : forall items, new_bytes (bytes_of_items items) = Raise e ->
                   normalizer_error e).
  { intros items H. apply new_bytes_raises, bytes_of_items_raises in H.
    now apply constructor_error_normalizer. }
  destruct v; unfold to_bytes; try discriminate;
    try apply Henc; try apply Hseq; try apply (Hnum (PyBool b));
    try apply (Hnum (PyInt n)); try apply (Hnum (PyFloat x)).
  intros [= <-]. exact I.
Qed.

(** The result of [to_bytes] is a bytes-like object. *)
Lemma to_bytes_bytes_like (v w : PyVal) :
  to_bytes v = Ok w -> is_bytes_like w = true.
Proof.
  assert (Hnew : forall r, new_bytes r = Ok w -> is_bytes_like w = true).
  { intros r H. apply new_bytes_ok in H as (b & _ & ->). reflexivity. }
  destruct v; unfold to_bytes; try (intros [= <-]; reflexivity);
    try discriminate; try apply Hnew;
    destruct (str_of_number _); try discriminate; apply Hnew.
Qed.

(** ** The paths through [write] *)

Lemma write_bad_command (s : ProtocolAdapter) (command : PyVal) (e : exn) :
  to_bytes command = Raise e -> write command s = (s, Raise e).
Proof. intros H. unfold write. run. rewrite H; run. reflexivity. Qed.

Lemma write_after_write_bytes (s s' : ProtocolAdapter) (command c : PyVal)
    (r : result unit) :
  to_bytes command = Ok c ->
  write_bytes (raw c) s = (s', r) ->
  write command s
  = match r with
    | Raise e => (s', Raise e)
    | Ok _ =>
        if bytes_eqb (_write_buffer s') [] then (s', Ok tt)
        else
          match comm_pairs s' !! _index s' with
          | Some step =>
              (s', Raise (AssertionError_WrittenBytes (_write_buffer s')
                            (fst step)))
          | None => (s', Raise IndexError)
          end
    end.
Proof.
  intros Hc Hw. unfold write. run. rewrite Hc; run. rewrite Hw; run.
  destruct r; [|reflexivity].
  destruct (bytes_eqb (_write_buffer s') []); [reflexivity|].
  now destruct (comm_pairs s' !! _index s').
Qed.

(** ** [read_bytes] *)

(** C7: for a count [>= 0] and a non-empty read buffer, [read_bytes(count)]
    returns the first [min(count, len)] bytes of the buffer and leaves the
    rest, so the returned bytes followed by the bytes left are the buffer
    (first in, first out).  With the pair [(b"CMD", b"ABCDE")], after
    [write("CMD")], four calls [read_bytes(2)] give [b"AB"], [b"CD"], [b"E"]
    and then [IndexError], the sequence being exhausted. *)
Theorem read_bytes_drains_fifo :
  (forall (s : ProtocolAdapter) (count : Z),
      0 <= count ->
      _read_buffer s <> [] ->
      exists n : nat,
        n = Nat.min (Z.to_nat count) (length (_read_buffer s))
        /\ read_bytes count s
           = (with_read_buffer (drop n (_read_buffer s)) s,
              Ok (take n (_read_buffer s)))
        /\ take n (_read_buffer s) ++ drop n (_read_buffer s) = _read_buffer s)
  /\ trace [read_bytes 2; read_bytes 2; read_bytes 2; read_bytes 2]
       (after (write (PyStr (py_str "CMD"))) Examples.CMD_ABCDE)
     = [Ok (B "AB"); Ok (B "CD"); Ok (B "E"); Raise IndexError].
Proof.
  split; [|reflexivity].
  intros s count Hcount Hbuf. eexists; split; [reflexivity|].
  split; [|apply take_drop].
  rewrite (read_bytes_buffered s count Hbuf).
  unfold slice_to, slice_from. now rewrite slice_bound_nonneg.
Qed.

Lemma read_bytes_drains_fifo_witness :
  exists n : nat,
    n = 1%nat
    /\ read_bytes 1 Examples.holding_42
       = (with_read_buffer (drop n (B "42")) Examples.holding_42,
          Ok (take n (B "42"))).
Proof.
  destruct (proj1 read_bytes_drains_fifo Examples.holding_42 1)
    as (n & Hn & Hread & _); [lia | discriminate |].
  exists n. split; [exact Hn | exact Hread].
Defined.

(** C4: with an empty read buffer and a count [>= 0], [read_bytes(count)]
    raises [IndexError] when [_index] is at or beyond the end of
    [comm_pairs]; raises the "Unexpected read" assertion when the current
    pair's write member is not [None]; and otherwise, the read member
    normalizing to [canned], moves [_index] on by one, returns the first
    [count] bytes of [canned] and keeps the rest in the read buffer.  With
    [(b"CMD", b"X")] as the only pair, [read()] before any write raises the
    "Unexpected read" assertion. *)
Theorem read_bytes_on_demand :
  (forall (s : ProtocolAdapter) (count : Z),
      _read_buffer s = [] ->
      0 <= count ->
      ((length (comm_pairs s) <= _index s)%nat ->
       read_bytes count s = (s, Raise IndexError))
      /\ (forall p_write p_read,
             comm_pairs s !! _index s = Some (p_write, p_read) ->
             p_write <> PyNone ->
             read_bytes count s = (s, Raise AssertionError_UnexpectedRead))
      /\ (forall p_read canned,
             comm_pairs s !! _index s = Some (PyNone, p_read) ->
             to_bytes p_read = Ok canned ->
             read_bytes count s
             = (mkAdapter (comm_pairs s)
                  (drop (Z.to_nat count) (raw canned))
                  (_write_buffer s) (_index s + 1),
                Ok (take (Z.to_nat count) (raw canned)))))
  /\ read Examples.CMD_X
     = (Examples.CMD_X, Raise AssertionError_UnexpectedRead).
Proof.
  split; [|reflexivity].
  intros s count Hempty Hcount. repeat split.
  - intros Hend. apply read_bytes_exhausted; [exact Hempty|].
    now apply lookup_ge_None_2.
  - intros p_write p_read Hstep Hw.
    now apply (read_bytes_unexpected s count Hempty p_write p_read).
  - intros p_read canned Hstep Hc.
    rewrite (read_bytes_load s count Hempty PyNone p_read Hstep eq_refl
               canned Hc).
    unfold slice_to, slice_from. rewrite slice_bound_nonneg by exact Hcount.
    now rewrite take_clipped, drop_clipped.
Qed.

Lemma read_bytes_on_demand_witness :
  read_bytes 0 (init []) = (init [], Raise IndexError)
  /\ read_bytes 2 Examples.CMD_X
     = (Examples.CMD_X, Raise AssertionError_UnexpectedRead)
  /\ read_bytes 2 Examples.None_HELLO
     = (mkAdapter (comm_pairs Examples.None_HELLO) (B "LLO") [] 1,
        Ok (B "HE")).
Proof.
  split; [|split].
  - destruct (proj1 read_bytes_on_demand (init []) 0 eq_refl) as (H & _ & _);
      [lia|].
    apply H. simpl. lia.
  - destruct (proj1 read_bytes_on_demand Examples.CMD_X 2 eq_refl)
      as (_ & H & _); [lia|].
    apply (H (PyBytes (B "CMD")) (PyBytes (B "X")) eq_refl). discriminate.
  - destruct (proj1 read_bytes_on_demand Examples.None_HELLO 2 eq_refl)
      as (_ & _ & H); [lia|].
    exact (H (PyBytes (B "HELLO")) (PyBytes (B "HELLO")) eq_refl eq_refl).
Defined.

(** C1, as the code has it: for a negative count [-k], [read_bytes] keeps
    back the last [min(k, len)] bytes.  With a non-empty read buffer it
    returns the buffer without those last bytes, which stay in the buffer;
    with an empty read buffer and a current pair whose write member is
    [None], it loads that pair, moves [_index] on by one and returns the
    normalized read member without its last [min(k, len)] bytes, which go
    to the read buffer. *)
Theorem read_bytes_negative_count (s : ProtocolAdapter) (count : Z) :
  count < 0 ->
  (_read_buffer s <> [] ->
   exists kept : nat,
     kept = Nat.min (length (_read_buffer s)) (Z.to_nat (- count))
     /\ read_bytes count s
        = (with_read_buffer
             (drop (length (_read_buffer s) - kept) (_read_buffer s)) s,
           Ok (take (length (_read_buffer s) - kept) (_read_buffer s))))
  /\ (_read_buffer s = [] ->
      forall p_read canned,
        comm_pairs s !! _index s = Some (PyNone, p_read) ->
        to_bytes p_read = Ok canned ->
        exists kept : nat,
          kept = Nat.min (length (raw canned)) (Z.to_nat (- count))
          /\ read_bytes count s
             = (mkAdapter (comm_pairs s)
                  (drop (length (raw canned) - kept) (raw canned))
                  (_write_buffer s) (_index s + 1),
                Ok (take (length (raw canned) - kept) (raw canned)))).
Proof.
  intros Hneg. split.
  - intros Hbuf. eexists; split; [reflexivity|].
    rewrite (read_bytes_buffered s count Hbuf).
    unfold slice_to, slice_from. now rewrite slice_bound_neg.
  - intros Hempty p_read canned Hstep Hc. eexists; split; [reflexivity|].
    rewrite (read_bytes_load s count Hempty PyNone p_read Hstep eq_refl
               canned Hc).
    unfold slice_to, slice_from. now rewrite slice_bound_neg.
Qed.

Lemma read_bytes_negative_count_witness :
  (exists kept : nat,
      kept = 1%nat
      /\ read_bytes (-1) Examples.holding_42
         = (with_read_buffer (drop (2 - kept) (B "42")) Examples.holding_42,
            Ok (take (2 - kept) (B "42"))))
  /\ (exists kept : nat,
         kept = 2%nat
         /\ read_bytes (-2) Examples.None_HELLO
            = (mkAdapter (comm_pairs Examples.None_HELLO)
                 (drop (5 - kept) (B "HELLO")) [] 1,
               Ok (take (5 - kept) (B "HELLO")))).
Proof.
  split.
  - destruct (read_bytes_negative_count Examples.holding_42 (-1)) as [H _];
      [lia|].
    apply H. discriminate.
  - destruct (read_bytes_negative_count Examples.None_HELLO (-2)) as [_ H];
      [lia|].
    exact (H eq_refl (PyBytes (B "HELLO")) (PyBytes (B "HELLO"))
             eq_refl eq_refl).
Defined.

(** C1 as stated fails: with [b"42"] buffered, [read_bytes(-1)] returns
    [b"4"], not the whole buffer, and [b"2"] stays buffered; with nothing
    buffered and the pair [(None, b"HELLO")], it returns [b"HELL"], not the
    entire canned read. *)
Lemma read_bytes_negative_count_counterexample :
  outcome (read_bytes (-1)) Examples.holding_42 = Ok (B "4")
  /\ outcome (read_bytes (-1)) Examples.holding_42
     <> Ok (_read_buffer Examples.holding_42)
  /\ _read_buffer (after (read_bytes (-1)) Examples.holding_42) = B "2"
  /\ _read_buffer (after (read_bytes (-1)) Examples.holding_42) <> []
  /\ outcome (read_bytes (-1)) Examples.None_HELLO = Ok (B "HELL")
  /\ outcome (read_bytes (-1)) Examples.None_HELLO <> Ok (B "HELLO").
Proof. repeat split; try reflexivity; discriminate. Qed.

(** ** [read] *)

(** [read_bytes(-1)] followed by [read_bytes(1)] hands over a non-empty
    read buffer whole: the first call keeps back exactly the byte the
    second one takes. *)
Lemma read_two_phase_whole_buffer (s : ProtocolAdapter) :
  _read_buffer s <> [] ->
  exists head tail : bytes,
    read_bytes (-1) s = (with_read_buffer tail s, Ok head)
    /\ read_bytes 1 (with_read_buffer tail s) = (with_read_buffer [] s, Ok tail)
    /\ head ++ tail = _read_buffer s.
Proof.
  intros Hbuf.
  exists (slice_to (_read_buffer s) (-1)), (slice_from (_read_buffer s) (-1)).
  split; [now apply read_bytes_buffered|].
  split; [|apply slice_split].
  assert (Hlen : length (slice_from (_read_buffer s) (-1)) = 1%nat).
  { unfold slice_from. rewrite slice_bound_neg, length_drop by lia.
    destruct (_read_buffer s); [easy | simpl; lia]. }
  destruct (slice_from (_read_buffer s) (-1)) as [|b [|? ?]]; try discriminate.
  reflexivity.
Qed.

(** C6: [read()] decodes as UTF-8 what [read_bytes(-1)] returned followed
    by what [read_bytes(1)] returned: it returns the text whose UTF-8
    encoding these bytes are, and raises [UnicodeDecodeError] when they are
    the encoding of no text.  For the single pair [(b"CMD", b"42")],
    [write("CMD")] succeeds, [read()] then returns ["42"], and a further
    [read()] raises [IndexError]. *)
Theorem read_two_phase_decode :
  (forall (s s1 s2 : ProtocolAdapter) (head tail : bytes),
      read_bytes (-1) s = (s1, Ok head) ->
      read_bytes 1 s1 = (s2, Ok tail) ->
      read s = (s2, bytes_decode (head ++ tail))
      /\ (forall text : str,
             Utf8.encode text = Some (head ++ tail) ->
             read s = (s2, Ok text))
      /\ ((forall text : str, Utf8.encode text <> Some (head ++ tail)) ->
          read s = (s2, Raise UnicodeDecodeError)))
  /\ outcome (write (PyStr (py_str "CMD"))) Examples.CMD_42 = Ok tt
  /\ trace [read; read] (after (write (PyStr (py_str "CMD"))) Examples.CMD_42)
     = [Ok (py_str "42"); Raise IndexError].
Proof.
  split; [|split; reflexivity].
  intros s s1 s2 head tail H1 H2.
  assert (Hread : read s = (s2, bytes_decode (head ++ tail))).
  { unfold read, bind, lift. now rewrite H1, H2. }
  split; [exact Hread|]. rewrite Hread. unfold bytes_decode. split.
  - intros text Ht. apply utf8_valid in Ht. now rewrite Ht.
  - intros Hnone. destruct (Utf8.decode (head ++ tail)) as [text|] eqn:Hd.
    + apply utf8_valid in Hd. now apply Hnone in Hd.
    + reflexivity.
Qed.

Lemma read_two_phase_decode_witness :
  read (with_read_buffer (B "42") (init []))
  = (with_read_buffer [] (init []), Ok (py_str "42"))
  /\ read (with_read_buffer [xc3; x28] (init []))
     = (with_read_buffer [] (init []), Raise UnicodeDecodeError).
Proof.
  split.
  - refine (proj1 (proj2 (proj1 read_two_phase_decode
      (with_read_buffer (B "42") (init []))
      (with_read_buffer (B "2") (init []))
      (with_read_buffer [] (init []))
      (B "4") (B "2") eq_refl eq_refl)) (py_str "42") eq_refl).
  - refine (proj2 (proj2 (proj1 read_two_phase_decode
      (with_read_buffer [xc3; x28] (init []))
      (with_read_buffer [x28] (init []))
      (with_read_buffer [] (init []))
      [xc3] [x28] eq_refl eq_refl)) _).
    intros text H. apply utf8_valid in H. discriminate H.
Defined.

(** ** [write_bytes] and [write] *)

(** C3: when the write buffer, once [content] is appended, equals the
    normalized write member of the current pair: with a non-empty read
    buffer the call raises the "Unread response" assertion; otherwise the
    write buffer is emptied, the read buffer becomes the normalized read
    member and [_index] moves on by exactly one.  With the pairs
    [(b"A", b"1")] and [(b"B", b"2")], writing ["A"] and then ["B"] without
    reading raises the "Unread response" assertion. *)
Theorem write_bytes_completed_match :
  (forall (s : ProtocolAdapter) (content : bytes)
          (p_write p_read expected : PyVal),
      comm_pairs s !! _index s = Some (p_write, p_read) ->
      to_bytes p_write = Ok expected ->
      _write_buffer s ++ content = raw expected ->
      (_read_buffer s <> [] ->
       write_bytes content s
       = (with_write_buffer (_write_buffer s ++ content) s,
          Raise (AssertionError_UnreadResponse (_read_buffer s))))
      /\ (_read_buffer s = [] ->
          forall canned : PyVal,
            to_bytes p_read = Ok canned ->
            write_bytes content s
            = (mkAdapter (comm_pairs s) (raw canned) [] (_index s + 1),
               Ok tt)))
  /\ trace [write (PyStr (py_str "A")); write (PyStr (py_str "B"))]
       Examples.A1_B2
     = [Ok tt; Raise (AssertionError_UnreadResponse (B "1"))].
Proof.
  split; [|reflexivity].
  intros s content p_write p_read expected Hstep Hexp Hfull. split.
  - intros Hunread.
    exact (write_bytes_unread _ _ _ _ Hstep _ Hexp Hfull Hunread).
  - intros Hempty canned Hcanned.
    exact (write_bytes_match _ _ _ _ Hstep _ Hexp Hfull _ Hempty Hcanned).
Qed.

Lemma write_bytes_completed_match_witness :
  write_bytes (B "B") (after (write_bytes (B "A")) Examples.A1_B2)
  = (mkAdapter (comm_pairs Examples.A1_B2) (B "1") (B "B") 1,
     Raise (AssertionError_UnreadResponse (B "1")))
  /\ write_bytes (B "MD") (with_write_buffer (B "C") Examples.CMD_42)
     = (mkAdapter (comm_pairs Examples.CMD_42) (B "42") [] 1, Ok tt).
Proof.
  split.
  - refine (proj1 (proj1 write_bytes_completed_match
      (after (write_bytes (B "A")) Examples.A1_B2) (B "B")
      (PyBytes (B "B")) (PyBytes (B "2")) (PyBytes (B "B"))
      eq_refl eq_refl eq_refl) _).
    discriminate.
  - refine (proj2 (proj1 write_bytes_completed_match
      (with_write_buffer (B "C") Examples.CMD_42) (B "MD")
      (PyBytes (B "CMD")) (PyBytes (B "42")) (PyBytes (B "CMD"))
      eq_refl eq_refl eq_refl) eq_refl (PyBytes (B "42")) eq_refl).
Defined.

(** C2, as the code has it: [write_bytes] has no mismatch test.  When the
    write buffer with [content] appended is not a prefix of the normalized
    write member of the current pair, [write_bytes] returns normally and
    only appends; it is [write] that then fails, with the "Written bytes
    ... do not match expected ..." assertion, which carries the bytes
    accumulated and the expected write member.  With the single pair
    [(b"CMD", None)], [write("XYZ")] fails with that assertion. *)
Theorem write_reports_mismatch :
  (forall (s : ProtocolAdapter) (content : bytes)
          (p_write p_read expected : PyVal),
      comm_pairs s !! _index s = Some (p_write, p_read) ->
      to_bytes p_write = Ok expected ->
      ~ (_write_buffer s ++ content) `prefix_of` raw expected ->
      write_bytes content s
      = (with_write_buffer (_write_buffer s ++ content) s, Ok tt)
      /\ (forall command c : PyVal,
             to_bytes command = Ok c ->
             raw c = content ->
             write command s
             = (with_write_buffer (_write_buffer s ++ content) s,
                Raise (AssertionError_WrittenBytes
                         (_write_buffer s ++ content) p_write))))
  /\ write (PyStr (py_str "XYZ")) Examples.CMD_None
     = (with_write_buffer (B "XYZ") Examples.CMD_None,
        Raise (AssertionError_WrittenBytes (B "XYZ") (PyBytes (B "CMD")))).
Proof.
  split; [|reflexivity].
  intros s content p_write p_read expected Hstep Hexp Hpre.
  assert (Hneq : _write_buffer s ++ content <> raw expected).
  { intros H. apply Hpre. rewrite H. reflexivity. }
  assert (Hnil : _write_buffer s ++ content <> []).
  { intros H. apply Hpre. rewrite H. apply prefix_nil. }
  pose proof (write_bytes_partial _ _ _ _ Hstep _ Hexp Hneq) as Hw.
  split; [exact Hw|].
  intros command c Hc <-.
  rewrite (write_after_write_bytes _ _ _ _ _ Hc Hw). simpl.
  rewrite (bytes_eqb_neq _ _ Hnil), Hstep. reflexivity.
Qed.

Lemma write_reports_mismatch_witness :
  write_bytes (B "Z") (with_write_buffer (B "XY") Examples.CMD_None)
  = (with_write_buffer (B "XYZ") Examples.CMD_None, Ok tt)
  /\ write (PyBytes (B "Z")) (with_write_buffer (B "XY") Examples.CMD_None)
     = (with_write_buffer (B "XYZ") Examples.CMD_None,
        Raise (AssertionError_WrittenBytes (B "XYZ") (PyBytes (B "CMD")))).
Proof.
  assert (Hpre : ~ (B "XYZ") `prefix_of` (B "CMD")).
  { intros [k Hk]. discriminate Hk. }
  destruct (proj1 write_reports_mismatch
              (with_write_buffer (B "XY") Examples.CMD_None) (B "Z")
              (PyBytes (B "CMD")) PyNone (PyBytes (B "CMD"))
              eq_refl eq_refl Hpre) as [Hw Hwrite].
  split; [exact Hw|].
  exact (Hwrite (PyBytes (B "Z")) (PyBytes (B "Z")) eq_refl eq_refl).
Defined.

(** C2 as stated fails: with the single pair [(b"CMD", None)],
    [write_bytes(b"XYZ")] does not raise, although [b"XYZ"] is not a prefix
    of [b"CMD"]. *)
Lemma write_bytes_mismatch_counterexample :
  ~ (_write_buffer Examples.CMD_None ++ B "XYZ") `prefix_of` (B "CMD")
  /\ to_bytes (PyBytes (B "CMD")) = Ok (PyBytes (B "CMD"))
  /\ write_bytes (B "XYZ") Examples.CMD_None
     = (with_write_buffer (B "XYZ") Examples.CMD_None, Ok tt).
Proof.
  split; [|split; reflexivity].
  intros [k Hk]. discriminate Hk.
Qed.

(** [write_bytes] never raises the assertion of [write]. *)
Lemma write_bytes_raises (s : ProtocolAdapter) (content : bytes) (e : exn) :
  outcome (write_bytes content) s = Raise e ->
  e = IndexError
  \/ e = AssertionError_UnreadResponse (_read_buffer s)
  \/ normalizer_error e.
Proof.
  unfold outcome.
  destruct (write_bytes_path_total s content); simpl; try discriminate;
    intros [= <-]; eauto using to_bytes_raises.
Qed.

(** When [write_bytes] returns with bytes left in the write buffer, it has
    found a current pair and only appended. *)
Lemma write_bytes_left_over (s s' : ProtocolAdapter) (content : bytes) :
  write_bytes content s = (s', Ok tt) ->
  _write_buffer s' <> [] ->
  s' = with_write_buffer (_write_buffer s ++ content) s
  /\ exists step, comm_pairs s' !! _index s' = Some step.
Proof.
  intros Hw Hleft. pose proof (write_bytes_path_total s content) as Hp.
  rewrite Hw in Hp. inversion Hp; subst; simpl in *.
  - split; [reflexivity | eauto].
  - contradiction.
Qed.

(** C5: [write(command)] normalizes [command], calls [write_bytes] with the
    bytes obtained, and then raises the "Written bytes ... do not match
    expected ..." assertion exactly when [write_bytes] returned with a
    non-empty write buffer; the assertion carries that buffer and the write
    member of the current pair.  With the pair [(b"CMD", b"OK")] and
    nothing written yet, [write("CM")] raises that assertion, while
    [write_bytes(b"CM")] followed by [write_bytes(b"D")] succeeds and
    [read()] then returns ["OK"]. *)
Theorem write_incomplete :
  (forall (s : ProtocolAdapter) (command : PyVal) (e : exn),
      to_bytes command = Raise e -> write command s = (s, Raise e))
  /\ (forall (s : ProtocolAdapter) (command c : PyVal),
         to_bytes command = Ok c ->
         after (write command) s = after (write_bytes (raw c)) s
         /\ ((exists written expected,
                 outcome (write command) s
                 = Raise (AssertionError_WrittenBytes written expected))
             <-> (outcome (write_bytes (raw c)) s = Ok tt
                  /\ _write_buffer (after (write_bytes (raw c)) s) <> []))
         /\ (outcome (write_bytes (raw c)) s = Ok tt ->
             _write_buffer (after (write_bytes (raw c)) s) = [] ->
             outcome (write command) s = Ok tt)
         /\ (outcome (write_bytes (raw c)) s = Ok tt ->
             _write_buffer (after (write_bytes (raw c)) s) <> [] ->
             exists p_write p_read,
               comm_pairs s !! _index s = Some (p_write, p_read)
               /\ outcome (write command) s
                  = Raise (AssertionError_WrittenBytes
                             (_write_buffer s ++ raw c) p_write))
         /\ (forall e : exn,
                outcome (write_bytes (raw c)) s = Raise e ->
                outcome (write command) s = Raise e))
  /\ write (PyStr (py_str "CM")) Examples.CMD_OK
     = (with_write_buffer (B "CM") Examples.CMD_OK,
        Raise (AssertionError_WrittenBytes (B "CM") (PyBytes (B "CMD"))))
  /\ trace [write_bytes (B "CM"); write_bytes (B "D")] Examples.CMD_OK
     = [Ok tt; Ok tt]
  /\ outcome read
       (after (write_bytes (B "D"))
          (after (write_bytes (B "CM")) Examples.CMD_OK))
     = Ok (py_str "OK").
Proof.
  split; [exact write_bad_command|].
  split; [|repeat split; reflexivity].
  intros s command c Hc. unfold after, outcome.
  destruct (write_bytes (raw c) s) as [s' r] eqn:Hw.
  rewrite (write_after_write_bytes _ _ _ _ _ Hc Hw). simpl.
  destruct r as [[]|e]; simpl.
  - destruct (bytes_eq_dec (_write_buffer s') []) as [Hnil|Hleft].
    + rewrite Hnil; simpl. split; [reflexivity|]. split; [|split; [|split]].
      * split; [intros (? & ? & ?); discriminate|].
        intros [_ H]; contradiction.
      * reflexivity.
      * contradiction.
      * discriminate.
    + destruct (write_bytes_left_over _ _ _ Hw Hleft)
        as [Hs' [[p_write p_read] Hstep]].
      rewrite (bytes_eqb_neq _ _ Hleft), Hstep; simpl.
      split; [reflexivity|]. split; [|split; [|split]].
      * split; [intros _; split; [reflexivity | exact Hleft] | eauto].
      * contradiction.
      * intros _ _. exists p_write, p_read. subst s'. simpl in *.
        split; [exact Hstep | reflexivity].
      * discriminate.
  - split; [reflexivity|]. split; [|split; [|split]].
    + split; [|intros [? _]; discriminate].
      intros (w & x & H). injection H as ->.
      pose proof
        (write_bytes_raises s (raw c) (AssertionError_WrittenBytes w x)) as Hr.
      unfold outcome in Hr. rewrite Hw in Hr.
      destruct (Hr eq_refl) as [?|[?|Hn]]; [discriminate | discriminate | ].
      destruct Hn.
    + discriminate.
    + discriminate.
    + intros ? [= ->]. reflexivity.
Qed.

Lemma write_incomplete_witness :
  (exists written expected,
      outcome (write (PyStr (py_str "CM"))) Examples.CMD_OK
      = Raise (AssertionError_WrittenBytes written expected))
  /\ outcome (write (PyStr (py_str "CMD"))) Examples.CMD_OK = Ok tt.
Proof.
  destruct (proj1 (proj2 write_incomplete) Examples.CMD_OK
              (PyStr (py_str "CM")) (PyBytes (B "CM")) eq_refl)
    as (_ & [_ Hraise] & _).
  destruct (proj1 (proj2 write_incomplete) Examples.CMD_OK
              (PyStr (py_str "CMD")) (PyBytes (B "CMD")) eq_refl)
    as (_ & _ & Hok & _ & _).
  split.
  - apply Hraise. split; [reflexivity | discriminate].
  - apply Hok; reflexivity.
Defined.

(** C10: [write_bytes] is not atomic on failure.  Whenever it raises the
    "Unread response" assertion or [IndexError] (the current pair is looked
    up beyond the end of [comm_pairs]), [content] has already been appended
    to the write buffer and stays there, while [_index] and the read buffer
    are as before the call. *)
Theorem write_bytes_not_atomic
    (s : ProtocolAdapter) (content : bytes) (e : exn) :
  outcome (write_bytes content) s = Raise e ->
  e = IndexError \/ (exists unread, e = AssertionError_UnreadResponse unread) ->
  _write_buffer (after (write_bytes content) s) = _write_buffer s ++ content
  /\ _index (after (write_bytes content) s) = _index s
  /\ _read_buffer (after (write_bytes content) s) = _read_buffer s
  /\ comm_pairs (after (write_bytes content) s) = comm_pairs s.
Proof.
  unfold outcome, after. intros Hraise He.
  destruct (write_bytes_path_total s content) as
    [ | ? ? e' ? Hn | | | ? ? ? e' ? ? ? ? Hn | ];
    simpl in *; try discriminate; try easy.
  exfalso. injection Hraise as ->. apply to_bytes_raises in Hn.
  destruct He as [->|[? ->]]; exact Hn.
Qed.

Lemma write_bytes_not_atomic_witness :
  _write_buffer (after (write_bytes (B "B"))
                   (after (write_bytes (B "A")) Examples.A1_B2)) = B "B"
  /\ _write_buffer (after (write_bytes (B "X")) (init [])) = B "X".
Proof.
  split.
  - refine (proj1 (write_bytes_not_atomic
      (after (write_bytes (B "A")) Examples.A1_B2) (B "B")
      (AssertionError_UnreadResponse (B "1")) eq_refl _)).
    right. exists (B "1"). reflexivity.
  - refine (proj1 (write_bytes_not_atomic (init []) (B "X") IndexError
      eq_refl _)).
    left. reflexivity.
Defined.

(** ** [to_bytes] *)

(** Text of code points below 128 is encoded one byte per code point. *)
Lemma encode_ascii (s : str) :
  Forall (fun c => (c < 128)%N) s ->
  Utf8.encode s = Some (map Utf8.byte_of_N s).
Proof.
  induction 1 as [|c s Hc _ IH]; [reflexivity|].
  simpl. rewrite IH. unfold Utf8.encode_cp.
  destruct (N.ltb_spec c 128); [reflexivity | lia].
Qed.

Lemma encode_py_str (t : string) :
  Forall (fun b => (Byte.to_N b < 128)%N) (list_byte_of_string t) ->
  str_encode (py_str t) = Ok (B t).
Proof.
  intros H. unfold str_encode, py_str, B.
  rewrite encode_ascii by (now apply Forall_map).
  rewrite map_map. f_equal.
  rewrite <- (map_id (list_byte_of_string t)) at 2.
  apply map_ext. intros b. apply byte_of_N_to_N.
Qed.

(** The digits (and sign) of a decimal number are ASCII characters. *)
Lemma string_of_uint_ascii (d : Decimal.uint) :
  Forall (fun b => (Byte.to_N b < 128)%N)
    (list_byte_of_string (NilEmpty.string_of_uint d)).
Proof.
  induction d; simpl; constructor; try assumption; reflexivity.
Qed.

Lemma string_of_int_ascii (n : Z) :
  Forall (fun b => (Byte.to_N b < 128)%N)
    (list_byte_of_string (NilZero.string_of_int (Z.to_int n))).
Proof.
  assert (Hu : forall d, Forall (fun b => (Byte.to_N b < 128)%N)
                 (list_byte_of_string (NilZero.string_of_uint d))).
  { intros d. destruct d; try apply string_of_uint_ascii.
    repeat constructor. }
  destruct n; simpl.
  - repeat constructor.
  - apply Hu.
  - constructor; [reflexivity | apply Hu].
Qed.

(** [str(n)] is the decimal notation of [n]: it reads back as [n]. *)
Lemma string_of_int_decimal (n : Z) :
  option_map Z.of_int
    (NilZero.int_of_string (NilZero.string_of_int (Z.to_int n)))
  = Some n.
Proof.
  rewrite NilZero.isi.
  - simpl. now rewrite DecimalZ.of_to.
  - destruct n; simpl; try discriminate.
    intros [= H]. now apply DecimalPos.Unsigned.to_uint_nonnil in H.
  - destruct n; simpl; try discriminate.
    intros [= H]. now apply DecimalPos.Unsigned.to_uint_nonnil in H.
Qed.



(** *** The digit limit of [str(int)] *)

Section Digits.

Local Open Scope N_scope.

Lemma usize_nb_digits (d : Decimal.uint) :
  Unsigned.usize d = N.of_nat (Decimal.nb_digits d).
Proof.
  induction d; [reflexivity|..];
    cbn [Unsigned.usize Decimal.nb_digits];
    rewrite Nat2N.inj_succ, IHd; reflexivity.
Qed.

Lemma of_lu_upper (l : Decimal.uint) :
  Unsigned.of_lu l < 10 ^ N.of_nat (Decimal.nb_digits l).
Proof.
  induction l; [reflexivity|..];
    cbn [Unsigned.of_lu Decimal.nb_digits];
    rewrite Nat2N.inj_succ, N.pow_succ_r'; lia.
Qed.

(** A decimal numeral without a leading zero denotes a number of exactly
    as many digits. *)
Lemma of_uint_bounds (d : Decimal.uint) :
  d <> Decimal.Nil ->
  Decimal.nzhead d = d ->
  10 ^ N.of_nat (Decimal.nb_digits d - 1) <= Pos.of_uint d
  /\ Pos.of_uint d < 10 ^ N.of_nat (Decimal.nb_digits d).
Proof.
  intros Hnil Hhead. rewrite Unsigned.of_uint_alt. split.
  2: { rewrite <- nb_digits_rev. apply of_lu_upper. }
  destruct d; try congruence;
    try (unfold Decimal.rev; simpl Decimal.revapp;
         rewrite Unsigned.of_lu_revapp, usize_nb_digits;
         simpl Decimal.nb_digits; rewrite Nat.sub_succ, Nat.sub_0_r;
         simpl Unsigned.of_lu; lia).
  (* a leading zero *)
  simpl in Hhead.
  pose proof (nb_digits_nzhead d) as H. rewrite Hhead in H.
  simpl in H. lia.
Qed.

Lemma to_uint_nzhead (p : positive) :
  Decimal.nzhead (Pos.to_uint p) = Pos.to_uint p.
Proof.
  pose proof (Unsigned.to_of (Pos.to_uint p)) as H.
  rewrite Unsigned.of_to in H. simpl N.to_uint in H.
  unfold Decimal.unorm in H.
  destruct (Decimal.nzhead (Pos.to_uint p)) eqn:E; try (now symmetry).
  exfalso. now apply Unsigned.to_uint_nonzero in H.
Qed.

Lemma pos_digits_bounds (p : positive) :
  10 ^ N.of_nat (Decimal.nb_digits (Pos.to_uint p) - 1) <= N.pos p
  /\ N.pos p < 10 ^ N.of_nat (Decimal.nb_digits (Pos.to_uint p)).
Proof.
  rewrite <- (Unsigned.of_to p).
  apply of_uint_bounds; [apply Unsigned.to_uint_nonnil | apply to_uint_nzhead].
Qed.

End Digits.

(** An integer has at most [k >= 1] digits exactly when its absolute value
    is below [10^k]. *)
Lemma decimal_digits_le (n : Z) (k : nat) :
  (1 <= k)%nat ->
  (decimal_digits n <= k)%nat <-> Z.abs n < 10 ^ Z.of_nat k.
Proof.
  intros Hk.
  assert (Hpos : forall p : positive,
             (Decimal.nb_digits (Pos.to_uint p) <= k)%nat
             <-> Z.pos p < 10 ^ Z.of_nat k).
  { intros p. destruct (pos_digits_bounds p) as [Hlo Hhi].
    set (d := Decimal.nb_digits (Pos.to_uint p)) in *.
    assert (Hlo' : 10 ^ Z.of_nat (d - 1) <= Z.pos p).
    { apply N2Z.inj_le in Hlo. rewrite N2Z.inj_pow, nat_N_Z in Hlo. exact Hlo. }
    assert (Hhi' : Z.pos p < 10 ^ Z.of_nat d).
    { apply N2Z.inj_lt in Hhi. rewrite N2Z.inj_pow, nat_N_Z in Hhi. exact Hhi. }
    split; intros H.
    - eapply Z.lt_le_trans; [exact Hhi'|].
      apply Z.pow_le_mono_r; lia.
    - destruct (Nat.le_gt_cases d k) as [|Hgt]; [assumption|exfalso].
      assert (10 ^ Z.of_nat k <= 10 ^ Z.of_nat (d - 1))
        by (apply Z.pow_le_mono_r; lia).
      lia. }
  destruct n as [|p|p]; unfold decimal_digits; simpl Z.to_int; simpl Z.abs.
  - simpl. split; [intros _|lia]. apply Z.pow_pos_nonneg; lia.
  - apply Hpos.
  - apply Hpos.
Qed.

Lemma str_of_int_small (n : Z) :
  Z.abs n < 10 ^ 4300 ->
  str_of_int n = Ok (py_str (NilZero.string_of_int (Z.to_int n))).
Proof.
  intros H. apply (decimal_digits_le n 4300) in H; [|lia].
  unfold str_of_int, int_max_str_digits.
  destruct (N.ltb_spec 4300 (N.of_nat (decimal_digits n))); [lia|reflexivity].
Qed.

Lemma str_of_int_large (n : Z) :
  10 ^ 4300 <= Z.abs n -> str_of_int n = Raise ValueError_IntMaxStrDigits.
Proof.
  intros H. unfold str_of_int, int_max_str_digits.
  destruct (N.ltb_spec 4300 (N.of_nat (decimal_digits n))) as [|Hle];
    [reflexivity|].
  assert (Hd : (decimal_digits n <= 4300)%nat) by lia.
  apply (decimal_digits_le n 4300) in Hd; lia.
Qed.

Lemma to_bytes_int_small (n : Z) :
  Z.abs n < 10 ^ 4300 ->
  to_bytes (PyInt n) = Ok (PyBytes (B (NilZero.string_of_int (Z.to_int n)))).
Proof.
  intros H. unfold to_bytes, str_of_number.
  rewrite (str_of_int_small n H).
  now rewrite encode_py_str by apply string_of_int_ascii.
Qed.

Lemma to_bytes_int_large (n : Z) :
  10 ^ 4300 <= Z.abs n ->
  to_bytes (PyInt n) = Raise ValueError_IntMaxStrDigits.
Proof.
  intros H. unfold to_bytes, str_of_number.
  now rewrite (str_of_int_large n H).
Qed.

(** *** The text of a [float] *)

Section FloatFacts.









(** The text of a float is made of ASCII characters. *)
Lemma nilzero_string_of_uint_ascii (d : Decimal.uint) :
  Forall (fun b => (Byte.to_N b < 128)%N)
    (list_byte_of_string (NilZero.string_of_uint d)).
Proof.
  destruct d; try apply string_of_uint_ascii. repeat constructor.
Qed.

Lemma digit_bytes_ascii (c : Z) :
  Forall (fun b => (Byte.to_N b < 128)%N) (Float.digit_bytes c).
Proof. apply nilzero_string_of_uint_ascii. Qed.



Lemma literal_ascii (t : string) :
  forallb (fun b => (Byte.to_N b <? 128)%N) (list_byte_of_string t) = true ->
  Forall (fun b => (Byte.to_N b < 128)%N) (B t).
Proof.
  intros H. apply Forall_forall. intros b Hb.
  apply list_elem_of_In in Hb.
  rewrite forallb_forall in H. apply N.ltb_lt. now apply H.
Qed.

Lemma exponent_text_ascii (x : Z) :
  Forall (fun b => (Byte.to_N b < 128)%N) (Float.exponent_text x).
Proof.
  unfold Float.exponent_text.
  repeat apply Forall_app_2; try apply digit_bytes_ascii;
    repeat match goal with |- context [if ?c then _ else _] => destruct c end;
    first [apply Forall_nil_2 | now apply literal_ascii].
Qed.



End FloatFacts.







(** C9: [to_bytes] is idempotent: whenever [to_bytes(x)] succeeds with [y],
    [to_bytes(y)] succeeds with [y] again, a bytes-like object being
    returned as it is. *)
Theorem to_bytes_idempotent (x y : PyVal) :
  to_bytes x = Ok y -> to_bytes y = Ok y.
Proof.
  intros H. apply to_bytes_bytes_like in H.
  destruct y; try discriminate; reflexivity.
Qed.

Lemma to_bytes_idempotent_witness :
  to_bytes (PyBytes (B "CMD")) = Ok (PyBytes (B "CMD"))
  /\ to_bytes (PyBytes (B "-12")) = Ok (PyBytes (B "-12")).
Proof.
  split.
  - exact (to_bytes_idempotent (PyStr (py_str "CMD")) _ eq_refl).
  - exact (to_bytes_idempotent (PyInt (-12)) _ eq_refl).
Defined.

(** * Further properties *)

(** ** Paths and invariants *)

Lemma PyNone_dec (v : PyVal) : {v = PyNone} + {v <> PyNone}.
Proof. destruct v; (now left) || (now right). Qed.

Lemma read_bytes_path_total (s : ProtocolAdapter) (count : Z) :
  read_bytes_path s count (read_bytes count s).
Proof.
  destruct (bytes_eq_dec (_read_buffer s) []) as [Hempty|Hbuf].
  2: { rewrite read_bytes_buffered by exact Hbuf. now constructor. }
  destruct (comm_pairs s !! _index s) as [[p_write p_read]|] eqn:Hstep.
  2: { rewrite read_bytes_exhausted by assumption. now constructor. }
  destruct (PyNone_dec p_write) as [->|Hw].
  2: { rewrite (read_bytes_unexpected s count Hempty _ _ Hstep Hw).
       econstructor; eassumption. }
  destruct (to_bytes p_read) as [canned|e] eqn:Hc.
  - rewrite (read_bytes_load s count Hempty _ _ Hstep eq_refl _ Hc).
    econstructor; eassumption.
  - rewrite (read_bytes_bad_canned s count Hempty _ _ Hstep eq_refl _ Hc).
    econstructor; eassumption.
Qed.

Lemma advanced_refl (k : nat) (s : ProtocolAdapter) : advanced k s s.
Proof. unfold advanced. repeat split; lia. Qed.

Lemma advanced_trans (j k : nat) (s1 s2 s3 : ProtocolAdapter) :
  advanced j s1 s2 -> advanced k s2 s3 -> advanced (j + k) s1 s3.
Proof.
  unfold advanced. intros (Hc1 & Hi1 & Hb1) (Hc2 & Hi2 & Hb2).
  split; [congruence|]. split; [lia|]. intros H. rewrite Hc1 in *. auto.
Qed.

Lemma advanced_buffers (s : ProtocolAdapter) (rb wb : bytes) :
  advanced 0 s (mkAdapter (comm_pairs s) rb wb (_index s)).
Proof. unfold advanced; simpl. repeat split; lia. Qed.

Lemma advanced_next
    (s : ProtocolAdapter) (rb wb : bytes) (step : PyVal * PyVal) :
  comm_pairs s !! _index s = Some step ->
  advanced 1 s (mkAdapter (comm_pairs s) rb wb (_index s + 1)).
Proof.
  intros H. apply lookup_lt_Some in H. unfold advanced; simpl.
  repeat split; lia.
Qed.

Lemma advanced_weaken (j k : nat) (s s' : ProtocolAdapter) :
  (j <= k)%nat -> advanced j s s' -> advanced k s s'.
Proof.
  unfold advanced. intros Hjk (Hc & Hi & Hb). repeat split; (lia || auto).
Qed.

Lemma write_bytes_advanced (s : ProtocolAdapter) (content : bytes) :
  advanced 1 s (after (write_bytes content) s).
Proof.
  unfold after.
  destruct (write_bytes_path_total s content); simpl;
    try (apply (advanced_weaken 0 1); [lia | apply advanced_buffers]).
  eapply advanced_next; eassumption.
Qed.

Lemma read_bytes_advanced (s : ProtocolAdapter) (count : Z) :
  advanced 1 s (after (read_bytes count) s).
Proof.
  unfold after.
  destruct (read_bytes_path_total s count); simpl;
    try (apply (advanced_weaken 0 1); [lia | apply advanced_refl]).
  - apply (advanced_weaken 0 1); [lia | apply advanced_buffers].
  - eapply advanced_next; eassumption.
Qed.

Lemma write_after (s : ProtocolAdapter) (command c : PyVal) :
  to_bytes command = Ok c ->
  after (write command) s = after (write_bytes (raw c)) s.
Proof.
  intros Hc. unfold after.
  destruct (write_bytes (raw c) s) as [s' r] eqn:Hw.
  rewrite (write_after_write_bytes _ _ _ _ _ Hc Hw). simpl.
  destruct r; [|reflexivity].
  destruct (bytes_eqb (_write_buffer s') []); [reflexivity|].
  now destruct (comm_pairs s' !! _index s').
Qed.

(** X1: no method changes [comm_pairs] or moves [_index] back;
    [write_bytes], [write] and [read_bytes] move it on by at most one pair
    and [read] by at most two, and an [_index] within [comm_pairs] (as at
    construction) stays within it, whether the call returns or raises. *)
Theorem index_only_advances (s : ProtocolAdapter) :
  (forall content : bytes, advanced 1 s (after (write_bytes content) s))
  /\ (forall command : PyVal, advanced 1 s (after (write command) s))
  /\ (forall count : Z, advanced 1 s (after (read_bytes count) s))
  /\ advanced 2 s (after read s)
  /\ (forall pairs,
         (_index (init pairs) <= length (comm_pairs (init pairs)))%nat).
Proof.
  split; [intros; apply write_bytes_advanced|].
  split; [|split; [intros; apply read_bytes_advanced|split]].
  - intros command. destruct (to_bytes command) as [c|e] eqn:Hc.
    + rewrite (write_after _ _ _ Hc). apply write_bytes_advanced.
    + unfold after. rewrite (write_bad_command _ _ _ Hc). simpl.
      apply (advanced_weaken 0 1); [lia | apply advanced_refl].
  - pose proof (read_bytes_advanced s (-1)) as H1.
    unfold after, read, bind, lift in *.
    destruct (read_bytes (-1) s) as [s1 [head|e]]; simpl in *.
    + pose proof (read_bytes_advanced s1 1) as H2. unfold after in H2.
      destruct (read_bytes 1 s1) as [s2 [tail|e]]; simpl in *;
        exact (advanced_trans 1 1 _ _ _ H1 H2).
    + apply (advanced_weaken 1 2); [lia | exact H1].
  - intros pairs. simpl. lia.
Qed.

(** ** [read] *)

(** [read()] on a non-empty read buffer consumes no pair: it empties the
    buffer and decodes all of it. *)
Lemma read_buffered (s : ProtocolAdapter) :
  _read_buffer s <> [] ->
  read s = (with_read_buffer [] s, bytes_decode (_read_buffer s)).
Proof.
  intros Hbuf.
  destruct (read_two_phase_whole_buffer s Hbuf) as (head & tail & H1 & H2 & H).
  unfold read, bind, lift. now rewrite H1, H2, H.
Qed.

(** X2: [read()] with something in the read buffer returns all of it as
    text, leaves the buffer empty and consumes no pair; bytes that are not
    UTF-8 are lost to the [UnicodeDecodeError]: the buffer is empty after
    the failure too. *)
Theorem read_returns_whole_buffer (s : ProtocolAdapter) :
  _read_buffer s <> [] ->
  after read s = with_read_buffer [] s
  /\ (forall text : str,
         Utf8.encode text = Some (_read_buffer s) -> outcome read s = Ok text)
  /\ ((forall text : str, Utf8.encode text <> Some (_read_buffer s)) ->
      outcome read s = Raise UnicodeDecodeError).
Proof.
  intros Hbuf. unfold after, outcome. rewrite (read_buffered s Hbuf). simpl.
  split; [reflexivity|]. unfold bytes_decode. split.
  - intros text Ht. apply utf8_valid in Ht. now rewrite Ht.
  - intros Hnone. destruct (Utf8.decode (_read_buffer s)) as [text|] eqn:Hd.
    + apply utf8_valid in Hd. now apply Hnone in Hd.
    + reflexivity.
Qed.

Lemma read_returns_whole_buffer_witness :
  after read (with_read_buffer (B "ABCDE") Examples.CMD_42)
  = with_read_buffer [] Examples.CMD_42
  /\ outcome read (with_read_buffer (B "ABCDE") Examples.CMD_42)
     = Ok (py_str "ABCDE").
Proof.
  destruct (read_returns_whole_buffer
              (with_read_buffer (B "ABCDE") Examples.CMD_42))
    as (Hafter & Hok & _); [discriminate|].
  split; [exact Hafter|]. apply Hok. reflexivity.
Defined.

Lemma slice_last_byte (b : bytes) :
  b <> [] -> exists x : byte, slice_from b (-1) = [x].
Proof.
  intros Hb.
  assert (Hlen : length (slice_from b (-1)) = 1%nat).
  { unfold slice_from. rewrite slice_bound_neg, length_drop by lia.
    destruct b; [easy | simpl; lia]. }
  destruct (slice_from b (-1)) as [|x [|? ?]]; try discriminate. eauto.
Qed.

Lemma read_bytes_one_of_one (s : ProtocolAdapter) (x : byte) :
  _read_buffer s = [x] ->
  read_bytes 1 s = (with_read_buffer [] s, Ok [x]).
Proof.
  intros H. rewrite read_bytes_buffered by (rewrite H; discriminate).
  now rewrite H.
Qed.

(** X3: [read()] with an empty read buffer, at a pair whose write member is
    [None] and whose read member normalizes to at least one byte, consumes
    exactly that pair and returns the whole of its read member as text,
    leaving the read buffer empty and the write buffer as it was. *)
Theorem read_loads_on_demand
    (s : ProtocolAdapter) (p_read canned : PyVal) :
  _read_buffer s = [] ->
  comm_pairs s !! _index s = Some (PyNone, p_read) ->
  to_bytes p_read = Ok canned ->
  raw canned <> [] ->
  read s
  = (mkAdapter (comm_pairs s) [] (_write_buffer s) (_index s + 1),
     bytes_decode (raw canned)).
Proof.
  intros Hempty Hstep Hc Hne.
  pose proof (read_bytes_load s (-1) Hempty _ _ Hstep eq_refl _ Hc) as H1.
  destruct (slice_last_byte _ Hne) as [x Hx].
  unfold read, bind, lift. rewrite H1.
  rewrite (read_bytes_one_of_one _ x) by exact Hx.
  unfold with_read_buffer; simpl.
  now rewrite <- Hx, slice_split.
Qed.

Lemma read_loads_on_demand_witness :
  read Examples.None_HELLO
  = (mkAdapter (comm_pairs Examples.None_HELLO) [] [] 1,
     Ok (py_str "HELLO")).
Proof.
  refine (read_loads_on_demand Examples.None_HELLO (PyBytes (B "HELLO"))
            (PyBytes (B "HELLO")) eq_refl eq_refl eq_refl _).
  discriminate.
Defined.

(** X4: when the pair [read()] loads on demand has an empty read member
    (for instance [None]), [read()] does not return the empty text: its
    second phase goes on to the following pair.  If that pair's write
    member is [None] too, [read()] consumes both pairs and returns only the
    first byte of the second read member, keeping the rest buffered; if
    there is no following pair it raises [IndexError], and if the following
    pair expects a write it raises the "Unexpected read" assertion, in both
    cases with the first pair consumed. *)
Theorem read_skips_empty_reply
    (s : ProtocolAdapter) (p_read canned : PyVal) :
  _read_buffer s = [] ->
  comm_pairs s !! _index s = Some (PyNone, p_read) ->
  to_bytes p_read = Ok canned ->
  raw canned = [] ->
  (forall p_read' canned' : PyVal,
      comm_pairs s !! (_index s + 1)%nat = Some (PyNone, p_read') ->
      to_bytes p_read' = Ok canned' ->
      read s
      = (mkAdapter (comm_pairs s) (drop 1 (raw canned')) (_write_buffer s)
           (_index s + 1 + 1),
         bytes_decode (take 1 (raw canned'))))
  /\ (comm_pairs s !! (_index s + 1)%nat = None ->
      read s
      = (mkAdapter (comm_pairs s) [] (_write_buffer s) (_index s + 1),
         Raise IndexError))
  /\ (forall p_write' p_read' : PyVal,
         comm_pairs s !! (_index s + 1)%nat = Some (p_write', p_read') ->
         p_write' <> PyNone ->
         read s
         = (mkAdapter (comm_pairs s) [] (_write_buffer s) (_index s + 1),
            Raise AssertionError_UnexpectedRead)).
Proof.
  intros Hempty Hstep Hc Hnil.
  pose proof (read_bytes_load s (-1) Hempty _ _ Hstep eq_refl _ Hc) as H1.
  rewrite Hnil in H1. change (slice_from [] (-1)) with (@nil byte) in H1.
  change (slice_to [] (-1)) with (@nil byte) in H1.
  set (s1 := mkAdapter (comm_pairs s) [] (_write_buffer s) (_index s + 1)) in *.
  split; [|split].
  - intros p_read' canned' Hstep' Hc'.
    unfold read, bind, lift. rewrite H1.
    rewrite (read_bytes_load s1 1 eq_refl _ _ Hstep' eq_refl _ Hc').
    unfold slice_to, slice_from. rewrite slice_bound_nonneg by lia.
    change (Z.to_nat 1) with 1%nat. rewrite take_clipped, drop_clipped.
    reflexivity.
  - intros Hnone. unfold read, bind, lift. rewrite H1.
    now rewrite (read_bytes_exhausted s1 1 eq_refl Hnone).
  - intros p_write' p_read' Hstep' Hw.
    unfold read, bind, lift. rewrite H1.
    now rewrite (read_bytes_unexpected s1 1 eq_refl _ _ Hstep' Hw).
Qed.

Lemma read_skips_empty_reply_witness :
  read (init [(PyNone, PyNone); (PyNone, PyBytes (B "AB"))])
  = (mkAdapter [(PyNone, PyNone); (PyNone, PyBytes (B "AB"))] (B "B") [] 2,
     Ok (py_str "A"))
  /\ read (init [(PyNone, PyNone)])
     = (mkAdapter [(PyNone, PyNone)] [] [] 1, Raise IndexError).
Proof.
  split.
  - refine (proj1 (read_skips_empty_reply
      (init [(PyNone, PyNone); (PyNone, PyBytes (B "AB"))])
      PyNone (PyBytes []) eq_refl eq_refl eq_refl eq_refl)
      (PyBytes (B "AB")) (PyBytes (B "AB")) eq_refl eq_refl).
  - refine (proj1 (proj2 (read_skips_empty_reply (init [(PyNone, PyNone)])
      PyNone (PyBytes []) eq_refl eq_refl eq_refl eq_refl)) eq_refl).
Defined.

(** X5: with nothing in the read buffer, a read is refused without any
    change to the adapter when no pair is left ([IndexError]) or when the
    current pair expects a write (the "Unexpected read" assertion); this
    holds for [read()] and for [read_bytes(count)] with any count, negative
    ones included. *)
Theorem read_refused_unchanged (s : ProtocolAdapter) :
  _read_buffer s = [] ->
  (comm_pairs s !! _index s = None ->
   read s = (s, Raise IndexError)
   /\ forall count : Z, read_bytes count s = (s, Raise IndexError))
  /\ (forall p_write p_read : PyVal,
         comm_pairs s !! _index s = Some (p_write, p_read) ->
         p_write <> PyNone ->
         read s = (s, Raise AssertionError_UnexpectedRead)
         /\ forall count : Z,
             read_bytes count s = (s, Raise AssertionError_UnexpectedRead)).
Proof.
  intros Hempty. split.
  - intros Hnone. split; [|intros; now apply read_bytes_exhausted].
    unfold read, bind, lift.
    now rewrite (read_bytes_exhausted s (-1) Hempty Hnone).
  - intros p_write p_read Hstep Hw.
    split; [|intros; now apply (read_bytes_unexpected s _ Hempty _ _ Hstep)].
    unfold read, bind, lift.
    now rewrite (read_bytes_unexpected s (-1) Hempty _ _ Hstep Hw).
Qed.

Lemma read_refused_unchanged_witness :
  read_bytes (-3) Examples.CMD_X
  = (Examples.CMD_X, Raise AssertionError_UnexpectedRead)
  /\ read (init []) = (init [], Raise IndexError).
Proof.
  destruct (read_refused_unchanged Examples.CMD_X eq_refl) as [_ Hdue].
  destruct (read_refused_unchanged (init []) eq_refl) as [Hend _].
  split.
  - refine (proj2 (Hdue (PyBytes (B "CMD")) (PyBytes (B "X")) eq_refl _) (-3)).
    discriminate.
  - exact (proj1 (Hend eq_refl)).
Defined.

(** ** [read_bytes] *)

(** X6: [read_bytes] never drops, repeats or reorders bytes, whatever the
    count (negative ones included): when it returns, what it returns
    followed by what it leaves in the read buffer is, byte for byte, the
    read buffer it found, or the normalized read member it loaded when it
    found the buffer empty. *)
Theorem read_bytes_conserves
    (s s' : ProtocolAdapter) (count : Z) (out : bytes) :
  read_bytes count s = (s', Ok out) ->
  (_read_buffer s <> [] ->
   out ++ _read_buffer s' = _read_buffer s /\ _index s' = _index s)
  /\ (_read_buffer s = [] ->
      exists p_read canned : PyVal,
        comm_pairs s !! _index s = Some (PyNone, p_read)
        /\ to_bytes p_read = Ok canned
        /\ out ++ _read_buffer s' = raw canned
        /\ _index s' = (_index s + 1)%nat).
Proof.
  intros Hread. pose proof (read_bytes_path_total s count) as Hp.
  rewrite Hread in Hp. inversion Hp; subst; simpl.
  - split; [intros _; split; [apply slice_split | reflexivity]|].
    intros Hempty. contradiction.
  - split; [intros Hbuf; contradiction|].
    intros _. exists p_read, canned.
    repeat split; try assumption. apply slice_split.
Qed.

Lemma read_bytes_conserves_witness :
  exists p_read canned : PyVal,
    comm_pairs Examples.None_HELLO !! 0%nat = Some (PyNone, p_read)
    /\ to_bytes p_read = Ok canned
    /\ B "HEL" ++ B "LO" = raw canned
    /\ 1%nat = (0 + 1)%nat.
Proof.
  exact (proj2 (read_bytes_conserves Examples.None_HELLO
                  (mkAdapter (comm_pairs Examples.None_HELLO) (B "LO") [] 1)
                  (-2) (B "HEL") eq_refl) eq_refl).
Defined.

(** X7: reading a buffered reply in two chunks is reading it in one: for
    counts [a, b >= 0] with more than [a] bytes buffered, [read_bytes(a)]
    followed by [read_bytes(b)] leaves the adapter as [read_bytes(a + b)]
    does, and the two results put together are the result of the single
    call. *)
Theorem read_bytes_chunks_compose (s : ProtocolAdapter) (a b : Z) :
  0 <= a ->
  0 <= b ->
  (Z.to_nat a < length (_read_buffer s))%nat ->
  exists (s1 s2 : ProtocolAdapter) (r1 r2 : bytes),
    read_bytes a s = (s1, Ok r1)
    /\ read_bytes b s1 = (s2, Ok r2)
    /\ read_bytes (a + b) s = (s2, Ok (r1 ++ r2)).
Proof.
  intros Ha Hb Hlen.
  assert (Hbuf : _read_buffer s <> []).
  { destruct (_read_buffer s); [simpl in Hlen; lia | discriminate]. }
  assert (Hrest : drop (Z.to_nat a) (_read_buffer s) <> []).
  { intros H. apply drop_nil_inv in H. lia. }
  assert (Hslice : forall (l : bytes) (i : Z), 0 <= i ->
            slice_to l i = take (Z.to_nat i) l
            /\ slice_from l i = drop (Z.to_nat i) l).
  { intros l i Hi. unfold slice_to, slice_from.
    rewrite slice_bound_nonneg by exact Hi.
    now rewrite take_clipped, drop_clipped. }
  destruct (Hslice (_read_buffer s) a Ha) as [Ht1 Hd1].
  destruct (Hslice (_read_buffer s) (a + b) ltac:(lia)) as [Ht3 Hd3].
  destruct (Hslice (drop (Z.to_nat a) (_read_buffer s)) b Hb) as [Ht2 Hd2].
  eexists _, _, _, _. split; [|split].
  - apply read_bytes_buffered. exact Hbuf.
  - apply read_bytes_buffered. simpl. rewrite Hd1. exact Hrest.
  - rewrite (read_bytes_buffered s (a + b) Hbuf).
    unfold with_read_buffer; simpl.
    rewrite Ht1, Hd1, Ht2, Hd2, Ht3, Hd3.
    rewrite Z2Nat.inj_add by lia.
    now rewrite drop_drop, take_take_drop.
Qed.

Lemma read_bytes_chunks_compose_witness :
  exists (s1 s2 : ProtocolAdapter) (r1 r2 : bytes),
    read_bytes 2 (with_read_buffer (B "ABCDE") (init [])) = (s1, Ok r1)
    /\ read_bytes 2 s1 = (s2, Ok r2)
    /\ read_bytes (2 + 2) (with_read_buffer (B "ABCDE") (init []))
       = (s2, Ok (r1 ++ r2)).
Proof.
  apply (read_bytes_chunks_compose (with_read_buffer (B "ABCDE") (init [])));
    [lia | lia | simpl; lia].
Defined.

(** ** [write_bytes] and [write] *)

(** Only the accumulated bytes matter to [write_bytes]. *)
Lemma write_bytes_appended (s : ProtocolAdapter) (a b : bytes) :
  write_bytes b (with_write_buffer (_write_buffer s ++ a) s)
  = write_bytes (a ++ b) s.
Proof. unfold write_bytes. run. now rewrite <- app_assoc. Qed.

(** X8: a command may be written in parts: when [write_bytes(a)] returns
    without having completed a pair ([_index] has not moved), a following
    [write_bytes(b)] does exactly what the single call [write_bytes(a + b)]
    would have done from the start, in result and in the state it
    leaves. *)
Theorem write_bytes_parts_compose (s : ProtocolAdapter) (a b : bytes) :
  outcome (write_bytes a) s = Ok tt ->
  _index (after (write_bytes a) s) = _index s ->
  write_bytes b (after (write_bytes a) s) = write_bytes (a ++ b) s.
Proof.
  unfold outcome, after. intros Hok Hidx.
  destruct (write_bytes_path_total s a); simpl in *; try discriminate.
  - apply write_bytes_appended.
  - lia.
Qed.

Lemma write_bytes_parts_compose_witness :
  write_bytes (B "D") (after (write_bytes (B "CM")) Examples.CMD_OK)
  = write_bytes (B "CM" ++ B "D") Examples.CMD_OK.
Proof.
  exact (write_bytes_parts_compose Examples.CMD_OK (B "CM") (B "D")
           eq_refl eq_refl).
Defined.

(** X9: a [write] that failed its "Written bytes ... do not match"
    assertion has kept its bytes: the next [write(c2)] behaves as a single
    [write] of the two commands' bytes put together would have from the
    state before the failed call.  So [write("CM")] fails and a following
    [write("D")] completes [b"CMD"]. *)
Theorem failed_write_resumes
    (s : ProtocolAdapter) (c1 c2 b1 b2 : PyVal) (written : bytes)
    (expected : PyVal) :
  to_bytes c1 = Ok b1 ->
  to_bytes c2 = Ok b2 ->
  outcome (write c1) s = Raise (AssertionError_WrittenBytes written expected) ->
  write c2 (after (write c1) s) = write (PyBytes (raw b1 ++ raw b2)) s.
Proof.
  intros H1 H2 Hfail.
  rewrite (write_after _ _ _ H1). unfold outcome, after in *.
  destruct (write_bytes (raw b1) s) as [s1 r1] eqn:Hw1. simpl.
  rewrite (write_after_write_bytes _ _ _ _ _ H1 Hw1) in Hfail.
  destruct r1 as [[]|e]; simpl in Hfail.
  - destruct (bytes_eq_dec (_write_buffer s1) []) as [Hnil|Hleft].
    { rewrite Hnil in Hfail. discriminate. }
    destruct (write_bytes_left_over _ _ _ Hw1 Hleft) as [-> _].
    destruct (write_bytes (raw b2)
                (with_write_buffer (_write_buffer s ++ raw b1) s))
      as [s2 r2] eqn:Hw2.
    rewrite (write_after_write_bytes _ _ _ _ _ H2 Hw2).
    rewrite write_bytes_appended in Hw2.
    now rewrite (write_after_write_bytes s s2 (PyBytes (raw b1 ++ raw b2))
                   (PyBytes (raw b1 ++ raw b2)) r2 eq_refl Hw2).
  - exfalso. injection Hfail as ->.
    pose proof (write_bytes_raises s (raw b1)
                  (AssertionError_WrittenBytes written expected)) as Hr.
    unfold outcome in Hr. rewrite Hw1 in Hr.
    destruct (Hr eq_refl) as [?|[?|Hn]]; [discriminate | discriminate |].
    destruct Hn.
Qed.

Lemma failed_write_resumes_witness :
  write (PyStr (py_str "D"))
    (after (write (PyStr (py_str "CM"))) Examples.CMD_OK)
  = write (PyBytes (B "CM" ++ B "D")) Examples.CMD_OK
  /\ write (PyBytes (B "CM" ++ B "D")) Examples.CMD_OK
     = (mkAdapter (comm_pairs Examples.CMD_OK) (B "OK") [] 1, Ok tt).
Proof.
  split; [|reflexivity].
  exact (failed_write_resumes Examples.CMD_OK (PyStr (py_str "CM"))
           (PyStr (py_str "D")) (PyBytes (B "CM")) (PyBytes (B "D"))
           (B "CM") (PyBytes (B "CMD")) eq_refl eq_refl eq_refl).
Defined.

Lemma adapter_eta (s : ProtocolAdapter) :
  mkAdapter (comm_pairs s) (_read_buffer s) (_write_buffer s) (_index s) = s.
Proof. now destruct s. Qed.

(** X10: a [write] returns normally in two cases only.  Either the bytes
    accumulated with the command are exactly the current pair's expected
    write and nothing was left unread: the pair is consumed and its read
    member is loaded.  Or the command is empty, nothing was accumulated and
    a non-empty write is expected: the call changes nothing and consumes no
    pair.  In both cases the write buffer is empty afterwards. *)
Theorem write_returns_cases
    (s s' : ProtocolAdapter) (command : PyVal) :
  write command s = (s', Ok tt) ->
  _write_buffer s' = []
  /\ exists c p_write p_read expected : PyVal,
      to_bytes command = Ok c
      /\ comm_pairs s !! _index s = Some (p_write, p_read)
      /\ to_bytes p_write = Ok expected
      /\ ((_write_buffer s ++ raw c = raw expected
           /\ _read_buffer s = []
           /\ exists canned : PyVal,
               to_bytes p_read = Ok canned
               /\ s' = mkAdapter (comm_pairs s) (raw canned) []
                         (_index s + 1))
          \/ (raw c = [] /\ _write_buffer s = [] /\ raw expected <> []
              /\ s' = s)).
Proof.
  intros Hw. destruct (to_bytes command) as [c|e] eqn:Hc.
  2: { rewrite (write_bad_command _ _ _ Hc) in Hw. discriminate. }
  destruct (write_bytes (raw c) s) as [s1 r1] eqn:Hw1.
  rewrite (write_after_write_bytes _ _ _ _ _ Hc Hw1) in Hw.
  destruct r1 as [[]|e]; [|discriminate].
  destruct (bytes_eq_dec (_write_buffer s1) []) as [Hnil|Hleft].
  2: { rewrite (bytes_eqb_neq _ _ Hleft) in Hw.
       destruct (comm_pairs s1 !! _index s1); discriminate. }
  rewrite Hnil in Hw. simpl in Hw. injection Hw as <-.
  split; [exact Hnil|].
  pose proof (write_bytes_path_total s (raw c)) as Hp. rewrite Hw1 in Hp.
  inversion Hp; subst; simpl in *.
  - exists c, p_write, p_read, expected. repeat split; try assumption.
    right. apply app_eq_nil in Hnil as [Hwb Hraw].
    repeat split; try assumption.
    + intros Hex. rewrite Hwb, Hraw, Hex in *. contradiction.
    + unfold with_write_buffer. rewrite Hwb, Hraw. simpl.
      rewrite <- Hwb. apply adapter_eta.
  - exists c, p_write, p_read, expected. repeat split; try assumption.
    left. repeat split; try assumption. eauto.
Qed.

Lemma write_returns_cases_witness :
  exists c p_write p_read expected : PyVal,
    to_bytes PyNone = Ok c
    /\ comm_pairs Examples.CMD_42 !! 0%nat = Some (p_write, p_read)
    /\ to_bytes p_write = Ok expected
    /\ (([] ++ raw c = raw expected
         /\ @nil byte = []
         /\ exists canned : PyVal,
             to_bytes p_read = Ok canned
             /\ Examples.CMD_42
                = mkAdapter (comm_pairs Examples.CMD_42) (raw canned) []
                    (0 + 1))
        \/ (raw c = [] /\ @nil byte = [] /\ raw expected <> []
            /\ Examples.CMD_42 = Examples.CMD_42)).
Proof.
  exact (proj2 (write_returns_cases Examples.CMD_42 Examples.CMD_42 PyNone
                  eq_refl)).
Defined.

(** X11: once every pair is consumed, no write is accepted any more:
    [write_bytes] and [write] (of anything [to_bytes] accepts, the empty
    command included) raise [IndexError], and the bytes handed over pile up
    in the write buffer all the same. *)
Theorem exhausted_write_refused (s : ProtocolAdapter) :
  (length (comm_pairs s) <= _index s)%nat ->
  (forall content : bytes,
      write_bytes content s
      = (with_write_buffer (_write_buffer s ++ content) s, Raise IndexError))
  /\ (forall command c : PyVal,
         to_bytes command = Ok c ->
         write command s
         = (with_write_buffer (_write_buffer s ++ raw c) s, Raise IndexError)).
Proof.
  intros Hend. apply lookup_ge_None_2 in Hend.
  split; [intros; now apply write_bytes_exhausted|].
  intros command c Hc.
  now rewrite (write_after_write_bytes _ _ _ _ _ Hc
                 (write_bytes_exhausted s (raw c) Hend)).
Qed.

Lemma exhausted_write_refused_witness :
  write PyNone
    (after read (after (write (PyStr (py_str "CMD"))) Examples.CMD_42))
  = (mkAdapter (comm_pairs Examples.CMD_42) [] [] 1, Raise IndexError).
Proof.
  refine (proj2 (exhausted_write_refused
                   (after read (after (write (PyStr (py_str "CMD")))
                                  Examples.CMD_42)) _)
            PyNone (PyBytes []) eq_refl).
  simpl. lia.
Defined.

(** ** A whole conversation *)

Lemma exchange_conforming
    (s : ProtocolAdapter)
    (command p_write p_read written expected canned : PyVal) (reply : str) :
  _read_buffer s = [] ->
  _write_buffer s = [] ->
  comm_pairs s !! _index s = Some (p_write, p_read) ->
  to_bytes command = Ok written ->
  to_bytes p_write = Ok expected ->
  raw written = raw expected ->
  to_bytes p_read = Ok canned ->
  raw canned <> [] ->
  Utf8.decode (raw canned) = Some reply ->
  write command s
  = (mkAdapter (comm_pairs s) (raw canned) [] (_index s + 1), Ok tt)
  /\ read (mkAdapter (comm_pairs s) (raw canned) [] (_index s + 1))
     = (mkAdapter (comm_pairs s) [] [] (_index s + 1), Ok reply).
Proof.
  intros Hrb Hwb Hstep Hc Hw Heq Hr Hne Hd. split.
  - assert (Hfull : _write_buffer s ++ raw written = raw expected)
      by (now rewrite Hwb).
    rewrite (write_after_write_bytes _ _ _ _ _ Hc
               (write_bytes_match _ _ _ _ Hstep _ Hw Hfull _ Hrb Hr)).
    reflexivity.
  - rewrite read_buffered by exact Hne. simpl.
    unfold bytes_decode. now rewrite Hd.
Qed.

Lemma converse_from (commands : list PyVal) :
  forall (pairs : list (PyVal * PyVal)) (replies : list str),
    conforms commands pairs replies ->
    forall done : list (PyVal * PyVal),
      converse commands (mkAdapter (done ++ pairs) [] [] (length done))
      = (mkAdapter (done ++ pairs) [] [] (length done + length pairs),
         Ok replies).
Proof.
  induction commands as [|command commands IH];
    intros pairs replies Hconf done; inversion Hconf; subst.
  - simpl. unfold ret. now rewrite Nat.add_0_r.
  - set (s := mkAdapter (done ++ (p_write, p_read) :: pairs0) [] []
                (length done)).
    assert (Hstep : comm_pairs s !! _index s = Some (p_write, p_read))
      by apply list_lookup_middle, eq_refl.
    destruct (exchange_conforming s command p_write p_read written expected
                canned reply eq_refl eq_refl Hstep)
      as [Hwrite Hread]; try assumption.
    simpl in Hwrite, Hread.
    change (converse (command :: commands)) with
      (bind (write command) (fun _ =>
         bind read (fun reply =>
           bind (converse commands) (fun replies =>
             ret (reply :: replies))))).
    unfold bind at 1. rewrite Hwrite.
    unfold bind at 1. rewrite Hread.
    unfold bind at 1.
    specialize (IH pairs0 replies0 ltac:(assumption)
                  (done ++ [(p_write, p_read)])).
    rewrite <- app_assoc, length_app in IH. simpl in IH.
    rewrite IH. unfold ret. simpl length.
    now rewrite <- Nat.add_assoc.
Qed.

(** X12: a client that follows the declared conversation passes it: when
    each command normalizes to the bytes of the expected write at its
    position, and each read member is a non-empty UTF-8 text, then writing
    each command and reading after it, from a freshly built adapter,
    never raises, returns the texts of the replies in order, and ends with
    every pair consumed and both buffers empty. *)
Theorem conforming_conversation_passes
    (commands : list PyVal) (pairs : list (PyVal * PyVal))
    (replies : list str) :
  conforms commands pairs replies ->
  converse commands (init pairs)
  = (mkAdapter pairs [] [] (length pairs), Ok replies).
Proof.
  intros H. exact (converse_from commands pairs replies H []).
Qed.

Lemma conforming_conversation_passes_witness :
  converse [PyStr (py_str "A"); PyList [PyInt 66]] Examples.A1_B2
  = (mkAdapter (comm_pairs Examples.A1_B2) [] [] 2,
     Ok [py_str "1"; py_str "2"]).
Proof.
  apply (conforming_conversation_passes
           [PyStr (py_str "A"); PyList [PyInt 66]]
           (comm_pairs Examples.A1_B2) [py_str "1"; py_str "2"]).
  eapply conforms_cons; try reflexivity; [discriminate|].
  eapply conforms_cons; try reflexivity; [discriminate|].
  constructor.
Defined.

(** X13: [write] accepts nothing but the expected write: with both buffers
    empty, a command whose bytes are not empty and differ from the current
    pair's normalized write member (too short, too long or different)
    always fails the "Written bytes ... do not match" assertion, which
    names the bytes written and the expected member, and no pair is
    consumed. *)
Theorem write_rejects_wrong_command
    (s : ProtocolAdapter) (command c p_write p_read expected : PyVal) :
  _write_buffer s = [] ->
  comm_pairs s !! _index s = Some (p_write, p_read) ->
  to_bytes p_write = Ok expected ->
  to_bytes command = Ok c ->
  raw c <> [] ->
  raw c <> raw expected ->
  write command s
  = (with_write_buffer (raw c) s,
     Raise (AssertionError_WrittenBytes (raw c) p_write)).
Proof.
  intros Hwb Hstep Hw Hc Hne Hneq.
  assert (Hpart : _write_buffer s ++ raw c <> raw expected)
    by (now rewrite Hwb).
  rewrite (write_after_write_bytes _ _ _ _ _ Hc
             (write_bytes_partial _ _ _ _ Hstep _ Hw Hpart)).
  rewrite Hwb. simpl. rewrite (bytes_eqb_neq _ _ Hne), Hstep. reflexivity.
Qed.

Lemma write_rejects_wrong_command_witness :
  write (PyStr (py_str "CMDX")) Examples.CMD_42
  = (with_write_buffer (B "CMDX") Examples.CMD_42,
     Raise (AssertionError_WrittenBytes (B "CMDX") (PyBytes (B "CMD")))).
Proof.
  refine (write_rejects_wrong_command Examples.CMD_42 (PyStr (py_str "CMDX"))
            (PyBytes (B "CMDX")) (PyBytes (B "CMD")) (PyBytes (B "42"))
            (PyBytes (B "CMD")) eq_refl eq_refl eq_refl eq_refl _ _);
    discriminate.
Defined.

(** ** [to_bytes] *)

Lemma byte_of_item_spec (v : PyVal) (b : byte) :
  byte_of_item v = Ok b <-> item_byte v b.
Proof.
  unfold byte_of_item, item_byte.
  destruct (index_of_item v) as [n|]; [|split; discriminate]. split.
  - destruct (Z.leb_spec 0 n); [|discriminate].
    destruct (Z.ltb_spec n 256); [|discriminate].
    simpl. intros [= <-]. f_equal.
    rewrite to_N_byte_of_N, N.mod_small by lia. lia.
  - intros [= ->]. pose proof (Byte.to_N_bounded b).
    destruct (Z.leb_spec 0 (Z.of_N (Byte.to_N b))); [|lia].
    destruct (Z.ltb_spec (Z.of_N (Byte.to_N b)) 256); [|lia].
    simpl. now rewrite N2Z.id, byte_of_N_to_N.
Qed.

Lemma bytes_of_items_spec (items : list PyVal) (bs : bytes) :
  bytes_of_items items = Ok bs <-> Forall2 item_byte items bs.
Proof.
  revert bs. induction items as [|v items IH]; intros bs; simpl.
  - split; [intros [= <-]; constructor | now inversion 1].
  - split.
    + destruct (byte_of_item v) as [b|] eqn:Hv; [|discriminate].
      destruct (bytes_of_items items) as [bs'|]; [|discriminate].
      intros [= <-]. constructor; [now apply byte_of_item_spec | now apply IH].
    + inversion 1 as [|? b ? bs' Hb Hbs]; subst.
      apply byte_of_item_spec in Hb. apply IH in Hbs.
      now rewrite Hb, Hbs.
Qed.

(** X14: on a list or a tuple, [to_bytes] succeeds exactly when every item
    is an [int], a [bool] or an object with an [__index__] method, and
    stands for an integer in [range(256)]; the result then has one byte
    per item, in order, each byte being that integer ([True] gives 1 and
    [False] 0). *)
Theorem to_bytes_sequence_spec (items : list PyVal) (bs : bytes) :
  (to_bytes (PyList items) = Ok (PyBytes bs) <-> Forall2 item_byte items bs)
  /\ (to_bytes (PyTuple items) = Ok (PyBytes bs)
      <-> Forall2 item_byte items bs)
  /\ (to_bytes (PyList items) = Ok (PyBytes bs) -> length bs = length items).
Proof.
  assert (H : new_bytes (bytes_of_items items) = Ok (PyBytes bs)
              <-> Forall2 item_byte items bs).
  { rewrite <- bytes_of_items_spec. unfold new_bytes.
    destruct (bytes_of_items items); split; try discriminate;
      intros [= ->]; reflexivity. }
  split; [exact H|]. split; [exact H|].
  intros Hok. apply H in Hok. symmetry. eapply Forall2_length, Hok.
Qed.

Lemma to_bytes_sequence_spec_witness :
  to_bytes (PyList [PyInt 65; PyBool true; PyOther "I" (Some 5)])
  = Ok (PyBytes [x41; x01; x05])
  /\ Forall2 item_byte [PyInt 255; PyBool false] [xff; x00]
  /\ ~ Forall2 item_byte [PyInt 300] [x2c].
Proof.
  split; [|split].
  - apply (proj1 (to_bytes_sequence_spec
                    [PyInt 65; PyBool true; PyOther "I" (Some 5)]
                    [x41; x01; x05])).
    repeat constructor.
  - exact (proj1 (proj1 (to_bytes_sequence_spec [PyInt 255; PyBool false]
                           [xff; x00])) eq_refl).
  - intros H.
    apply (proj1 (to_bytes_sequence_spec [PyInt 300] [x2c])) in H.
    discriminate H.
Defined.

Lemma encode_cp_none_iff (c : N) :
  (c < 0x110000)%N ->
  Utf8.encode_cp c = None <-> is_surrogate c = true.
Proof.
  intros Hc. unfold Utf8.encode_cp, is_surrogate.
  destruct (N.ltb_spec c 0x80); [split; [discriminate|]|].
  { rewrite andb_true_iff, N.leb_le, N.ltb_lt. lia. }
  destruct (N.ltb_spec c 0x800); [split; [discriminate|]|].
  { rewrite andb_true_iff, N.leb_le, N.ltb_lt. lia. }
  destruct (N.ltb_spec c 0x10000).
  { destruct ((0xD800 <=? c)%N && (c <? 0xE000)%N); split; easy. }
  destruct (N.ltb_spec c 0x110000); [|lia]. split; [discriminate|].
  rewrite andb_true_iff, N.leb_le, N.ltb_lt. lia.
Qed.

Lemma encode_none_iff (s : str) :
  Forall (fun c => (c < 0x110000)%N) s ->
  Utf8.encode s = None <-> Exists (fun c => is_surrogate c = true) s.
Proof.
  induction 1 as [|c s Hc _ IH]; simpl.
  - split; [discriminate | now inversion 1].
  - rewrite Exists_cons, <- IH, <- (encode_cp_none_iff c Hc).
    destruct (Utf8.encode_cp c), (Utf8.encode s); split;
      try discriminate; auto; intros [?|?]; discriminate.
Qed.

(** X15: on a [str], [to_bytes] fails exactly when the text holds a
    surrogate code point (U+D800 to U+DFFF), and then with
    [UnicodeEncodeError], not with its own "Invalid input" [TypeError];
    every other text is accepted. *)
Theorem to_bytes_str_fails_iff_surrogate (s : str) :
  Forall (fun c => (c < 0x110000)%N) s ->
  (to_bytes (PyStr s) = Raise UnicodeEncodeError
   <-> Exists (fun c => is_surrogate c = true) s)
  /\ ((exists b : bytes, to_bytes (PyStr s) = Ok (PyBytes b))
      <-> Forall (fun c => is_surrogate c = false) s).
Proof.
  intros Hs. pose proof (encode_none_iff s Hs) as Hnone.
  unfold to_bytes, new_bytes, str_encode. split.
  - rewrite <- Hnone. destruct (Utf8.encode s); split; easy.
  - assert (Hall : Forall (fun c => is_surrogate c = false) s
                   <-> ~ Exists (fun c => is_surrogate c = true) s).
    { rewrite <- Forall_Exists_neg. apply Forall_iff. intros c.
      now destruct (is_surrogate c). }
    rewrite Hall, <- Hnone.
    destruct (Utf8.encode s) as [b|]; split; try easy; eauto.
    intros [b Hb]. discriminate.
Qed.

Lemma to_bytes_str_fails_iff_surrogate_witness :
  to_bytes (PyStr [0x41; 0xD800]%N) = Raise UnicodeEncodeError
  /\ exists b : bytes, to_bytes (PyStr [0xE9; 0x20AC]%N) = Ok (PyBytes b).
Proof.
  split.
  - apply (proj1 (to_bytes_str_fails_iff_surrogate [0x41; 0xD800]%N
                    ltac:(repeat constructor))).
    right. left. reflexivity.
  - apply (proj2 (to_bytes_str_fails_iff_surrogate [0xE9; 0x20AC]%N
                    ltac:(repeat constructor))).
    repeat constructor.
Defined.

Lemma encode_cp_nonempty (c : N) (bs : bytes) :
  Utf8.encode_cp c = Some bs -> bs <> [].
Proof.
  unfold Utf8.encode_cp.
  repeat match goal with |- context [if ?t then _ else _] => destruct t end;
    intros [= <-]; discriminate.
Qed.

Lemma encode_nonempty (s : str) (b : bytes) :
  Utf8.encode s = Some b -> s <> [] -> b <> [].
Proof.
  destruct s as [|c s]; [easy|]. simpl.
  destruct (Utf8.encode_cp c) as [bs|] eqn:Hc; [|discriminate].
  destruct (Utf8.encode s); [|discriminate].
  intros [= <-] _ H. apply app_eq_nil in H as [H _].
  now apply encode_cp_nonempty in Hc.
Qed.

(** [read()] loading a non-empty reply on demand returns all of it. *)
Lemma read_on_demand_reply
    (s : ProtocolAdapter) (p_read canned : PyVal) :
  _read_buffer s = [] ->
  comm_pairs s !! _index s = Some (PyNone, p_read) ->
  to_bytes p_read = Ok canned ->
  raw canned <> [] ->
  read s
  = (mkAdapter (comm_pairs s) [] (_write_buffer s) (_index s + 1),
     bytes_decode (raw canned)).
Proof.
  intros Hempty Hstep Hc Hne.
  pose proof (read_bytes_load s (-1) Hempty _ _ Hstep eq_refl _ Hc) as H1.
  destruct (slice_last_byte _ Hne) as [x Hx].
  unfold read, bind, lift. rewrite H1.
  rewrite (read_bytes_one_of_one _ x) by exact Hx.
  unfold with_read_buffer; simpl.
  now rewrite <- Hx, slice_split.
Qed.

(** X16: text survives the round trip through bytes.  What [to_bytes]
    makes of a [str] are bytes that decode, as UTF-8, to that [str], and
    bytes that decode to a text are what [to_bytes] makes of that text; so
    two different texts never normalize to the same bytes.  A reply given
    as a non-empty [str] is read back unchanged by [read()], from the read
    buffer once a write has loaded it there, and on demand from a pair
    without write member.  (The empty text is not read back: [read()] then
    goes on to the next pair.) *)
Theorem to_bytes_str_round_trip (s : str) (b : bytes) :
  (to_bytes (PyStr s) = Ok (PyBytes b) <-> bytes_decode b = Ok s)
  /\ (to_bytes (PyStr s) = Ok (PyBytes b) ->
      s <> [] ->
      (forall st : ProtocolAdapter,
          _read_buffer st = b ->
          read st = (with_read_buffer [] st, Ok s))
      /\ (forall st : ProtocolAdapter,
             _read_buffer st = [] ->
             comm_pairs st !! _index st = Some (PyNone, PyStr s) ->
             read st
             = (mkAdapter (comm_pairs st) [] (_write_buffer st)
                  (_index st + 1),
                Ok s))).
Proof.
  assert (Hiff : to_bytes (PyStr s) = Ok (PyBytes b) <-> bytes_decode b = Ok s).
  { unfold to_bytes, new_bytes, str_encode, bytes_decode. split.
    - destruct (Utf8.encode s) as [b'|] eqn:He; [|discriminate].
      intros [= ->]. apply utf8_valid in He. now rewrite He.
    - destruct (Utf8.decode b) as [s'|] eqn:Hd; [|discriminate].
      intros [= ->]. apply utf8_valid in Hd. now rewrite Hd. }
  split; [exact Hiff|].
  intros Hb Hs. pose proof (proj1 Hiff Hb) as Hdec.
  assert (Hne : b <> []).
  { unfold to_bytes, new_bytes, str_encode in Hb.
    destruct (Utf8.encode s) as [b'|] eqn:He; [|discriminate].
    injection Hb as ->. exact (encode_nonempty _ _ He Hs). }
  split.
  - intros st Hbuf. rewrite read_buffered by (now rewrite Hbuf).
    now rewrite Hbuf, Hdec.
  - intros st Hempty Hstep.
    rewrite (read_on_demand_reply st _ _ Hempty Hstep Hb Hne). simpl.
    now rewrite Hdec.
Qed.

Lemma to_bytes_str_round_trip_witness :
  bytes_decode [xc3; xa9; xe2; x82; xac] = Ok [0xE9; 0x20AC]%N
  /\ to_bytes (PyStr (py_str "42")) = Ok (PyBytes (B "42"))
  /\ read (after (write (PyStr (py_str "CMD")))
             (init [(PyBytes (B "CMD"), PyStr [0xE9; 0x20AC]%N)]))
     = (mkAdapter [(PyBytes (B "CMD"), PyStr [0xE9; 0x20AC]%N)] [] [] 1,
        Ok [0xE9; 0x20AC]%N)
  /\ read (init [(PyNone, PyStr (py_str "42"))])
     = (mkAdapter [(PyNone, PyStr (py_str "42"))] [] [] 1, Ok (py_str "42")).
Proof.
  split; [|split; [|split]].
  - exact (proj1 (proj1 (to_bytes_str_round_trip [0xE9; 0x20AC]%N
                           [xc3; xa9; xe2; x82; xac])) eq_refl).
  - exact (proj2 (proj1 (to_bytes_str_round_trip (py_str "42") (B "42")))
             eq_refl).
  - refine (proj1 (proj2 (to_bytes_str_round_trip [0xE9; 0x20AC]%N
                            [xc3; xa9; xe2; x82; xac]) eq_refl _)
              (after (write (PyStr (py_str "CMD")))
                 (init [(PyBytes (B "CMD"), PyStr [0xE9; 0x20AC]%N)]))
              eq_refl).
    discriminate.
  - refine (proj2 (proj2 (to_bytes_str_round_trip (py_str "42") (B "42"))
                     eq_refl _)
              (init [(PyNone, PyStr (py_str "42"))]) eq_refl eq_refl).
    discriminate.
Defined.

(** X17: among the integers [str()] converts, those of at most 4300
    digits, different integers normalize to different bytes: the decimal
    text [to_bytes] writes for an [int] determines it.  The integers of
    more digits all fail alike, with the [ValueError] of [str()]. *)
Theorem to_bytes_int_injective (n m : Z) :
  (Z.abs n < 10 ^ 4300 ->
   Z.abs m < 10 ^ 4300 ->
   n <> m ->
   to_bytes (PyInt n) <> to_bytes (PyInt m))
  /\ (10 ^ 4300 <= Z.abs n ->
      10 ^ 4300 <= Z.abs m ->
      to_bytes (PyInt n) = to_bytes (PyInt m)).
Proof.
  split.
  - intros Hn Hm Hnm.
    rewrite (to_bytes_int_small n Hn), (to_bytes_int_small m Hm).
    intros [= H]. apply Hnm. unfold B in H.
    apply (f_equal string_of_list_byte) in H.
    rewrite !string_of_list_byte_of_string in H.
    pose proof (string_of_int_decimal n) as Hdn.
    pose proof (string_of_int_decimal m) as Hdm.
    rewrite H in Hdn. congruence.
  - intros Hn Hm.
    now rewrite (to_bytes_int_large n Hn), (to_bytes_int_large m Hm).
Qed.

Lemma to_bytes_int_injective_witness :
  to_bytes (PyInt 10) <> to_bytes (PyInt (-10))
  /\ to_bytes (PyInt (10 ^ 4300)) = to_bytes (PyInt (- 10 ^ 4300)).
Proof.
  assert (Hsmall : forall k : Z, Z.abs k = 10 -> Z.abs k < 10 ^ 4300).
  { intros k ->. apply Z.lt_le_trans with (10 ^ 2); [reflexivity|].
    apply Z.pow_le_mono_r; lia. }
  assert (Hpow : 0 <= 10 ^ 4300) by (apply Z.pow_nonneg; lia).
  split.
  - apply (proj1 (to_bytes_int_injective 10 (-10)));
      [now apply Hsmall | now apply Hsmall | discriminate].
  - apply (proj2 (to_bytes_int_injective (10 ^ 4300) (- 10 ^ 4300))).
    + rewrite Z.abs_eq by exact Hpow. apply Z.le_refl.
    + rewrite Z.abs_opp, Z.abs_eq by exact Hpow. apply Z.le_refl.
Defined.
